(** * google-sheet-db: the collection layer over a remote spreadsheet

    A shallow embedding of [src/google-sheet-db.ts] (the version with lazy
    materialisation, class [GoogleSheetDb]) and of the interface of the grid
    client [src/google-sheet.ts] it drives.

    - JavaScript numbers are embedded as [Z]: the integer-valued numbers, which
      is what lengths, row numbers and [_index] are; template literals print
      them in decimal.
    - Objects and arrays are shared by reference in the source, so records and
      collections live in two heaps and are named by their address.
    - Every [await]ed call of the grid client is logged in a trace and answered
      by a client given as a parameter; a rejected promise aborts the enclosing
      operation with the state reached so far.
    - The cells the client reads back are strings, as the API formats them;
      the cells written are the values of the record fields.
    - [uuid()] is a parameter too: the identifier drawn at the n-th call. *)

From Stdlib Require Import ZArith String Ascii List Lia.
From stdpp Require Import base list strings pretty option.

Open Scope Z_scope.

(** ** Outcomes *)

(** What a [throw] or a rejected promise carries. *)
Inductive error :=
| Error (message : string)   (* [throw new Error(message)] *)
| TypeError                  (* a property read on [undefined] or [null] *)
| RemoteFailure.             (* the grid client rejected the request *)

Inductive Result (A : Type) :=
| Ok (a : A)
| Err (e : error).
Arguments Ok {A} a.
Arguments Err {A} e.

(** ** Column letters *)

Definition AZ : list string :=
  ["A"; "B"; "C"; "D"; "E"; "F"; "G"; "H"; "I"; "J"; "K"; "L"; "M";
   "N"; "O"; "P"; "Q"; "R"; "S"; "T"; "U"; "V"; "W"; "X"; "Y"; "Z"]%string.

(** An array read that is concatenated or interpolated: a read past the end
    is [undefined], which prints as the word. *)
Definition js_string_of (o : option string) : string :=
  default "undefined"%string o.

(** [getColumnByIndex], lines 363-379. *)
Definition getColumnByIndex (index : Z) : Result string :=
  if index <=? 0 then Err (Error "Index out range")
  else if index <=? 26 then
    Ok (js_string_of (AZ !! Z.to_nat (index - 1)))
  else
    let a := (index - 1) mod 26 in
    let b := (index - 1) / 26 - 1 in
    Ok (js_string_of (AZ !! Z.to_nat b) +:+ js_string_of (AZ !! Z.to_nat a)).

(** The specification's side of the encoding: the value of a numeral in
    bijective base 26, with digits A = 1 ... Z = 26.  A string with any other
    character is no numeral. *)
Definition letter_digit (c : ascii) : option Z :=
  let n := Z.of_N (N_of_ascii c) in
  if (65 <=? n) && (n <=? 90) then Some (n - 64) else None.

Fixpoint column_value_from (acc : Z) (s : string) : option Z :=
  match s with
  | EmptyString => Some acc
  | String c rest =>
      match letter_digit c with
      | Some d => column_value_from (acc * 26 + d) rest
      | None => None
      end
  end.

Definition column_value (s : string) : option Z :=
  match s with
  | EmptyString => None
  | _ => column_value_from 0 s
  end.

(** The encoding is right at [n] when the code returns the numeral of [n]. *)
Definition encodes (n : Z) : bool :=
  match getColumnByIndex n with
  | Ok s => bool_decide (column_value s = Some n)
  | Err _ => false
  end.

(** ** Values and record objects *)

Inductive value :=
| VUndef
| VNull
| VBool (b : bool)
| VNum (n : Z)
| VStr (s : string)
| VInherited (member : string).  (* a member of [Object.prototype] *)

(** An [IRecord] is a plain object: its own properties in the order
    [Object.keys] lists them (array-index keys ascending, then the other keys
    in creation order). *)
Definition IRecord := list (string * value).

(** Addresses of objects in a heap. *)
Abbreviation addr := nat (only parsing).

Definition object_prototype_members : list string :=
  ["constructor"; "__defineGetter__"; "__defineSetter__"; "hasOwnProperty";
   "__lookupGetter__"; "__lookupSetter__"; "isPrototypeOf";
   "propertyIsEnumerable"; "toString"; "valueOf"; "__proto__";
   "toLocaleString"]%string.

Definition inherited (k : string) : bool :=
  bool_decide (k ∈ object_prototype_members).

Fixpoint own {A : Type} (k : string) (o : list (string * A)) : option A :=
  match o with
  | [] => None
  | (k', v) :: rest => if String.eqb k' k then Some v else own k rest
  end.

(** [o[k]]. *)
Definition obj_get (k : string) (o : IRecord) : value :=
  match own k o with
  | Some v => v
  | None => if inherited k then VInherited k else VUndef
  end.

Fixpoint digits_value (acc : N) (s : string) : option N :=
  match s with
  | EmptyString => Some acc
  | String c rest =>
      let n := N_of_ascii c in
      if ((48 <=? n) && (n <=? 57))%N
      then digits_value (acc * 10 + (n - 48))%N rest
      else None
  end.

(** The keys an object lists first: canonical numerals below [2^32 - 1]. *)
Definition array_index (k : string) : option N :=
  match k with
  | EmptyString => None
  | _ =>
      match digits_value 0%N k with
      | Some n =>
          if String.eqb (pretty n) k && (n <? 4294967295)%N
          then Some n else None
      | None => None
      end
  end.

Fixpoint obj_replace {A : Type} (k : string) (v : A) (o : list (string * A))
  : list (string * A) :=
  match o with
  | [] => []
  | (k', v') :: rest =>
      if String.eqb k' k then (k', v) :: rest
      else (k', v') :: obj_replace k v rest
  end.

Fixpoint obj_insert_index (n : N) (k : string) (v : value) (o : IRecord)
  : IRecord :=
  match o with
  | [] => [(k, v)]
  | (k', v') :: rest =>
      match array_index k' with
      | Some n' =>
          if (n' <? n)%N then (k', v') :: obj_insert_index n k v rest
          else (k, v) :: o
      | None => (k, v) :: o
      end
  end.

(** [o[k] = v] for a primitive [v] other than [null]: an own property is
    overwritten where it stands, a new one is created in key order, and the
    inherited setter of [__proto__] ignores primitives. *)
Definition obj_set (k : string) (v : value) (o : IRecord) : IRecord :=
  match own k o with
  | Some _ => obj_replace k v o
  | None =>
      if String.eqb k "__proto__" then o
      else match array_index k with
           | Some n => obj_insert_index n k v o
           | None => o ++ [(k, v)]
           end
  end.

Definition reserved (k : string) : bool :=
  String.eqb k "_index" || String.eqb k "_id".

(** [Object.keys(x).filter(y => y !== '_index' && y !== '_id')]. *)
Definition rColumns (x : IRecord) : list string :=
  List.filter (fun y => negb (reserved y)) (map fst x).

(** ** Arrays *)

(** An array with holes; an assignment at a key that is no array index
    (negative, or [2^32 - 1] and above) makes a named property and leaves the
    elements and the length alone. *)
Record JsArray (A : Type) := mkArray {
  elems : list (option A);
  props : list (Z * A);
}.
Arguments mkArray {A} elems props.
Arguments elems {A} _.
Arguments props {A} _.

Definition empty_array {A : Type} : JsArray A := mkArray [] [].

Definition is_array_index (k : Z) : bool := (0 <=? k) && (k <? 4294967295).


Fixpoint zassoc_set {A : Type} (k : Z) (v : A) (l : list (Z * A))
  : list (Z * A) :=
  match l with
  | [] => [(k, v)]
  | (k', v') :: rest =>
      if k' =? k then (k', v) :: rest else (k', v') :: zassoc_set k v rest
  end.

(** [row[i] = v] on the elements: in range the slot is overwritten, past the
    end the array grows and the slots in between are holes. *)
Definition set_slot {A : Type} (i : nat) (v : A) (l : list (option A))
  : list (option A) :=
  if (i <? length l)%nat then <[i := Some v]> l
  else l ++ replicate (i - length l) None ++ [Some v].


(** [arr[k] = v]. *)
Definition arr_set {A : Type} (k : Z) (v : A) (arr : JsArray A) : JsArray A :=
  if is_array_index k
  then mkArray (set_slot (Z.to_nat k) v (elems arr)) (props arr)
  else mkArray (elems arr) (zassoc_set k v (props arr)).

(** The pairs [(index, element)] that [forEach] and [filter] visit: holes are
    skipped. *)
Definition entries {A : Type} (arr : JsArray A) : list (nat * A) :=
  omap (fun p => match snd p with Some a => Some (fst p, a) | None => None end)
       (imap (fun i e => (i, e)) (elems arr)).

(** [Array.prototype.push.apply(arr, items)]. *)
Definition arr_push {A : Type} (items : list A) (arr : JsArray A) : JsArray A :=
  mkArray (elems arr ++ map Some items) (props arr).

(** ** Column index *)

(** [IColumnMap]: the own entries [name -> {index}].  A header cell
    [__proto__] does not make an own entry: the assignment replaces the
    prototype of the map by [{index: i}], kept in [cm_proto]. *)
Record IColumnMap := mkColumnMap {
  cm_own : list (string * nat);
  cm_proto : option nat;
}.

Definition empty_column_map : IColumnMap := mkColumnMap [] None.

(** What [column_map[y]] evaluates to. *)
Inductive cm_lookup :=
| CmEntry (index : nat)         (* an object [{index}] *)
| CmForeign (truthy : bool)     (* an inherited value that has no [index] *)
| CmUndefined.

Definition cm_get (y : string) (cm : IColumnMap) : cm_lookup :=
  if String.eqb y "__proto__" then
    match cm_proto cm with
    | Some i => CmEntry i
    | None => CmForeign true
    end
  else
    match own y (cm_own cm) with
    | Some i => CmEntry i
    | None =>
        match cm_proto cm with
        | Some i =>
            if String.eqb y "index" then CmForeign (negb (i =? 0)%nat)
            else if inherited y then CmForeign true else CmUndefined
        | None => if inherited y then CmForeign true else CmUndefined
        end
    end.

(** [column_map[y] = { index: i }]. *)
Definition cm_set (y : string) (i : nat) (cm : IColumnMap) : IColumnMap :=
  if String.eqb y "__proto__" then mkColumnMap (cm_own cm) (Some i)
  else match own y (cm_own cm) with
       | Some _ => mkColumnMap (obj_replace y i (cm_own cm)) (cm_proto cm)
       | None => mkColumnMap (cm_own cm ++ [(y, i)]) (cm_proto cm)
       end.

Definition cm_truthy (l : cm_lookup) : bool :=
  match l with
  | CmEntry _ => true
  | CmForeign t => t
  | CmUndefined => false
  end.

(** ** Sheets and collections *)

Record GridProperties := mkGrid {
  rowCount : option Z;
  columnCount : option Z;
}.

(** The fields of [ISheetProperty] the database reads.  The title, which
    the API sends for every sheet, is taken as present; the identifier and
    the grid properties are optional as declared. *)
Record ISheetProperty := mkSheet {
  title : string;
  sheetId : option Z;
  gridProperties : option GridProperties;
}.

Record ICollection := mkCollection {
  name : string;
  sheet : option ISheetProperty;
  columns : list string;
  column_map : IColumnMap;
  data : JsArray addr;
  initialized : option bool;
}.

Definition with_columns (cols : list string) (cm : IColumnMap)
    (c : ICollection) : ICollection :=
  mkCollection (name c) (sheet c) cols cm (data c) (initialized c).

Definition with_data (d : JsArray addr) (c : ICollection) : ICollection :=
  mkCollection (name c) (sheet c) (columns c) (column_map c) d (initialized c).

Definition with_sheet (sh : option ISheetProperty) (c : ICollection)
  : ICollection :=
  mkCollection (name c) sh (columns c) (column_map c) (data c) (initialized c).

Definition empty_collection (n : string) : ICollection :=
  mkCollection n None [] empty_column_map empty_array None.

(** ** Projecting records on the columns *)

(** One round of [rColumns.forEach(y => ...)]: a field the column index does
    not know gets the next offset, then the value is stored at the offset the
    index gives.  When the index answers with an inherited member that has no
    [index], the store goes to the key [undefined] and no cell is written. *)
Definition project_field (x : IRecord)
    (acc : ICollection * list (option value) * bool) (y : string)
  : ICollection * list (option value) * bool :=
  let '(c, row, sync) := acc in
  let '(c1, sync1) :=
    if cm_truthy (cm_get y (column_map c)) then (c, sync)
    else (with_columns (columns c ++ [y])
            (cm_set y (length (columns c)) (column_map c)) c, true) in
  match cm_get y (column_map c1) with
  | CmEntry i => (c1, set_slot i (obj_get y x) row, sync1)
  | _ => (c1, row, sync1)
  end.

Definition project_record (c : ICollection) (x : IRecord) (sync : bool)
  : ICollection * list (option value) * bool :=
  fold_left (project_field x) (rColumns x) (c, [], sync).

(** [records.forEach(x => ...; values.push(value))]. *)
Fixpoint project_records (c : ICollection) (xs : list IRecord) (sync : bool)
  : ICollection * list (list (option value)) * bool :=
  match xs with
  | [] => (c, [], sync)
  | x :: rest =>
      let '(c1, row, sync1) := project_record c x sync in
      let '(c2, rows, sync2) := project_records c1 rest sync1 in
      (c2, row :: rows, sync2)
  end.

(** The header as [syncHeader] writes it: synthetic names are blanked. *)
Definition header_cell (x : string) : string :=
  if negb (String.eqb x "") && String.prefix "_column_" x then ""%string
  else x.

Definition header_values (cols : list string) : list (list (option value)) :=
  [map (fun x => Some (VStr (header_cell x))) cols].

(** The header loop of [getCollectionDataBySheet]. *)
Definition header_step (acc : list string * IColumnMap) (ix : nat * string)
  : list string * IColumnMap :=
  let '(cols, cm) := acc in
  let '(i, x) := ix in
  let key := if String.eqb x "" then "_column_" +:+ pretty i else x in
  (cols ++ [key], cm_set key i cm).

Definition read_header (headerRow : list string) : list string * IColumnMap :=
  fold_left header_step (imap (fun i x => (i, x)) headerRow)
            ([], empty_column_map).

(** [x[columnMap[col].index]]; [None] is the [TypeError] of reading [index]
    on [undefined]. *)
Definition cell_of (cm : IColumnMap) (x : list string) (col : string)
  : option value :=
  match cm_get col cm with
  | CmEntry j =>
      Some (match x !! j with Some s => VStr s | None => VUndef end)
  | CmForeign _ => Some VUndef
  | CmUndefined => None
  end.

Fixpoint fill_item (cm : IColumnMap) (x : list string) (cols : list string)
    (item : IRecord) : option IRecord :=
  match cols with
  | [] => Some item
  | col :: rest =>
      match cell_of cm x col with
      | Some v => fill_item cm x rest (obj_set col v item)
      | None => None
      end
  end.

(** ** The grid client and the state of the database *)

Inductive request :=
| ReqAuthenticate
| ReqGetSheets
| ReqCreateSheet (sheetTitle : string)
| ReqApplyHeaderStyle (id : option Z)
| ReqReadData (range : string)
| ReqWriteData (range : string) (values : list (list (option value)))
| ReqRemoveRows (id : option Z) (startIndex count : Z).

(** The client [GoogleSheet]: each method answers from the requests made so
    far; [None] is a rejected promise.  [readData] may resolve to
    [undefined]. *)
Module GoogleSheet.
Record t := mk {
  authenticate : list request -> option unit;
  getSheets : list request -> option (list ISheetProperty);
  createSheet : list request -> string -> option (list ISheetProperty);
  applyHeaderStyle : list request -> option Z -> option unit;
  readData : list request -> string -> option (option (list (list string)));
  writeData :
    list request -> string -> list (list (option value)) -> option unit;
  removeRows : list request -> option Z -> Z -> Z -> option unit;
}.
End GoogleSheet.

Record State := mkState {
  trace : list request;        (* requests sent to the client, oldest first *)
  uuids : nat;                 (* identifiers drawn so far *)
  records : list IRecord;      (* the record objects *)
  objects : list ICollection;  (* the collection objects *)
  collections : list addr;     (* [this.collections] *)
}.

Definition set_trace (t : list request) (s : State) : State :=
  mkState t (uuids s) (records s) (objects s) (collections s).
Definition set_uuids (n : nat) (s : State) : State :=
  mkState (trace s) n (records s) (objects s) (collections s).
Definition set_records (h : list IRecord) (s : State) : State :=
  mkState (trace s) (uuids s) h (objects s) (collections s).
Definition set_objects (h : list ICollection) (s : State) : State :=
  mkState (trace s) (uuids s) (records s) h (collections s).
Definition set_collections (r : list addr) (s : State) : State :=
  mkState (trace s) (uuids s) (records s) (objects s) r.

(** An address that was never allocated reads as an empty object; the
    operations follow only the addresses they are given or make. *)
Definition record_at (a : addr) (s : State) : IRecord :=
  default [] (records s !! a).
Definition collection_at (c : addr) (s : State) : ICollection :=
  default (empty_collection "") (objects s !! c).

(** A caller's predicate [(value, index, obj) => boolean]: it may read the
    record objects and does not write. *)
Definition Predicate := list IRecord -> addr -> nat -> JsArray addr -> bool.

Definition defaultPredicateFn : Predicate := fun _ _ _ _ => true.

(** ** The monad of the operations: state, and errors that keep the state *)

Definition M (A : Type) : Type := State -> Result A * State.

Definition ret {A : Type} (a : A) : M A := fun s => (Ok a, s).

Definition throw {A : Type} (e : error) : M A := fun s => (Err e, s).

Definition bind {A B : Type} (m : M A) (f : A -> M B) : M B :=
  fun s =>
    match m s with
    | (Ok a, s1) => f a s1
    | (Err e, s1) => (Err e, s1)
    end.

Declare Scope db_scope.
Delimit Scope db_scope with db.
Notation "x <- m ;; k" := (bind m (fun x => k))
  (at level 100, m at next level, right associativity) : db_scope.
Notation "m ;; k" := (bind m (fun _ => k))
  (at level 100, right associativity) : db_scope.
Open Scope db_scope.

Definition lift {A : Type} (r : Result A) : M A := fun s => (r, s).

Definition from_option {A : Type} (e : error) (o : option A) : M A :=
  match o with
  | Some a => ret a
  | None => throw e
  end.

(** [await] of a client call: the request goes out, then the promise
    settles. *)
Definition await {A : Type} (r : request) (answer : list request -> option A)
  : M A :=
  fun s =>
    let s1 := set_trace (trace s ++ [r]) s in
    match answer (trace s) with
    | Some a => (Ok a, s1)
    | None => (Err RemoteFailure, s1)
    end.

Definition read_record (a : addr) : M IRecord :=
  fun s => (Ok (record_at a s), s).
Definition modify_record (a : addr) (f : IRecord -> IRecord) : M unit :=
  fun s => (Ok tt, set_records (<[a := f (record_at a s)]> (records s)) s).
Definition alloc_record (o : IRecord) : M addr :=
  fun s => (Ok (length (records s)), set_records (records s ++ [o]) s).

Definition read_collection (c : addr) : M ICollection :=
  fun s => (Ok (collection_at c s), s).
Definition modify_collection (c : addr) (f : ICollection -> ICollection)
  : M unit :=
  fun s => (Ok tt, set_objects (<[c := f (collection_at c s)]> (objects s)) s).
Definition alloc_collection (o : ICollection) : M addr :=
  fun s => (Ok (length (objects s)), set_objects (objects s ++ [o]) s).

Definition read_heap : M (list IRecord) := fun s => (Ok (records s), s).

(** [this.collections.find(x => x.name === collectionName)]. *)
Definition named (collectionName : string) (s : State) (c : addr) : bool :=
  match objects s !! c with
  | Some col => String.eqb (name col) collectionName
  | None => false
  end.

Definition registered (collectionName : string) (s : State) : option addr :=
  List.find (named collectionName s) (collections s).

Definition find_collection (collectionName : string) : M (option addr) :=
  fun s => (Ok (registered collectionName s), s).

(** The template [`${sheetName}!${rangeStart}:${rangeEnd}`]. *)
Definition range_of (sheetName rangeStart rangeEnd : string) : string :=
  sheetName +:+ "!" +:+ rangeStart +:+ ":" +:+ rangeEnd.

(** ** The operations of [GoogleSheetDb] *)

Section GoogleSheetDb.

(** [this.googleSheet], and the generator of [uuid/v4]: the identifier
    drawn at the n-th call. *)
Variable googleSheet : GoogleSheet.t.
Variable uuid : nat -> string.

Definition fresh_uuid : M string :=
  fun s => (Ok (uuid (uuids s)), set_uuids (S (uuids s)) s).

Definition truthy_count (n : option Z) : bool :=
  match n with
  | Some k => negb (k =? 0)
  | None => false
  end.

Definition truthy_flag (b : option bool) : bool := default false b.

(** [initialize], lines 389-405: one shell for each sheet. *)
Fixpoint push_shells (sheets : list ISheetProperty) : M unit :=
  match sheets with
  | [] => ret tt
  | sh :: rest =>
      c <- alloc_collection
             (mkCollection (title sh) (Some sh) [] empty_column_map
                           empty_array (Some false)) ;;
      (fun s => (Ok tt, set_collections (collections s ++ [c]) s)) ;;
      push_shells rest
  end.

Definition initialize : M unit :=
  await ReqAuthenticate (GoogleSheet.authenticate googleSheet) ;;
  sheets <- await ReqGetSheets (GoogleSheet.getSheets googleSheet) ;;
  (fun s => (Ok tt, set_collections [] s)) ;;
  push_shells sheets.

(** [createSheet], lines 407-412. *)
Definition createSheet (collectionName : string) : M ISheetProperty :=
  sheets <- await (ReqCreateSheet collectionName)
              (fun h => GoogleSheet.createSheet googleSheet h collectionName) ;;
  match List.find (fun x => String.eqb (title x) collectionName) sheets with
  | None => throw TypeError
  | Some sh =>
      await (ReqApplyHeaderStyle (sheetId sh))
        (fun h => GoogleSheet.applyHeaderStyle googleSheet h (sheetId sh)) ;;
      ret sh
  end.

(** [syncHeader], lines 414-422. *)
Definition syncHeader (c : addr) : M unit :=
  col <- read_collection c ;;
  let sheetName := name col in
  let rangeStart := "A1"%string in
  letters <- lift (getColumnByIndex (Z.of_nat (length (columns col)))) ;;
  let rangeEnd := letters +:+ "1" in
  let values := header_values (columns col) in
  let range := range_of sheetName rangeStart rangeEnd in
  await (ReqWriteData range values)
    (fun h => GoogleSheet.writeData googleSheet h range values).

(** The loop [rows.forEach((x, index) => ...)] of
    [getCollectionDataBySheet]. *)
Fixpoint read_rows (cols : list string) (cm : IColumnMap) (index : nat)
    (rows : list (list string)) : M (list addr) :=
  match rows with
  | [] => ret []
  | x :: rest =>
      id <- fresh_uuid ;;
      item <- from_option TypeError
                (fill_item cm x cols
                   [("_index"%string, VNum (Z.of_nat index));
                    ("_id"%string, VStr id)]) ;;
      a <- alloc_record item ;;
      more <- read_rows cols cm (S index) rest ;;
      ret (a :: more)
  end.

(** [getCollectionDataBySheet], lines 424-470. *)
Definition getCollectionDataBySheet (sh : option ISheetProperty)
  : M ICollection :=
  sheet_ <- from_option TypeError sh ;;
  grid <- from_option TypeError (gridProperties sheet_) ;;
  if truthy_count (rowCount grid) && truthy_count (columnCount grid) then
    let sheetName := title sheet_ in
    first <- lift (getColumnByIndex 1) ;;
    let rangeStart := first +:+ "1" in
    last <- lift (getColumnByIndex (default 0 (columnCount grid))) ;;
    let rangeEnd := last +:+ pretty (default 0 (rowCount grid)) in
    let range := range_of sheetName rangeStart rangeEnd in
    answer <- await (ReqReadData range)
                (fun h => GoogleSheet.readData googleSheet h range) ;;
    rows <- from_option TypeError answer ;;
    match rows with
    | [] => throw TypeError
    | headerRow :: rest =>
        let '(cols, cm) := read_header headerRow in
        items <- read_rows cols cm 0 rest ;;
        ret (mkCollection (title sheet_) (Some sheet_) cols cm
                          (mkArray (map Some items) []) (Some true))
    end
  else
    ret (mkCollection (title sheet_) (Some sheet_) [] empty_column_map
                      empty_array (Some true)).

(** [initCollection], lines 472-486. *)
Definition initCollection (c : addr) : M unit :=
  col <- read_collection c ;;
  if truthy_flag (initialized col) then ret tt
  else
    _collection <- getCollectionDataBySheet (sheet col) ;;
    modify_collection c (fun col =>
      mkCollection (name col) (sheet col) (columns _collection)
                   (column_map _collection) (data _collection) (Some true)).

(** [records.forEach((item, i) => ...)] after the write of [insertMany]. *)
Fixpoint stamp (c : addr) (i : nat) (items : list addr) : M unit :=
  match items with
  | [] => ret tt
  | item :: rest =>
      col <- read_collection c ;;
      modify_record item
        (obj_set "_index" (VNum (Z.of_nat (length (elems (data col)) + i)))) ;;
      id <- fresh_uuid ;;
      modify_record item (obj_set "_id" (VStr id)) ;;
      stamp c (S i) rest
  end.

(** The head of [insertMany], lines 497-513: the collection of that name
    or a new object, with its sheet made or its contents loaded. *)
Definition insert_target (collectionName : string) : M addr :=
  found <- find_collection collectionName ;;
  c <- match found with
       | Some c => ret c
       | None => alloc_collection (empty_collection collectionName)
       end ;;
  col <- read_collection c ;;
  match sheet col with
  | None =>
      sh <- createSheet (name col) ;;
      modify_collection c (with_sheet (Some sh))
  | Some _ => initCollection c
  end ;;
  ret c.

(** The body of [insertMany], lines 515-553: the columns, the writes, then
    the row cache. *)
Definition append_rows (c : addr) (recs : list addr) : M Z :=
  col <- read_collection c ;;
  heap <- read_heap ;;
  let '(col1, values, sync) :=
    project_records col (map (fun a => default [] (heap !! a)) recs) false in
  modify_collection c (fun _ => col1) ;;
  let sheetName := name col1 in
  let len := Z.of_nat (length (elems (data col1))) in
  let rangeStart := "A" +:+ pretty (len + 2) in
  letters <- lift (getColumnByIndex (Z.of_nat (length (columns col1)))) ;;
  let rangeEnd :=
    letters +:+ pretty (Z.of_nat (length values) + len + 1) in
  (if sync then syncHeader c else ret tt) ;;
  let range := range_of sheetName rangeStart rangeEnd in
  await (ReqWriteData range values)
    (fun h => GoogleSheet.writeData googleSheet h range values) ;;
  stamp c 0 recs ;;
  modify_collection c (fun col => with_data (arr_push recs (data col)) col) ;;
  ret (Z.of_nat (length values)).

(** [insertMany], lines 492-554. *)
Definition insertMany (collectionName : string) (recs : list addr) : M Z :=
  if (length recs =? 0)%nat then ret 0
  else
    c <- insert_target collectionName ;;
    append_rows c recs.

(** [insert], lines 488-490: the count of [insertMany] is awaited and
    dropped, the promise resolves to [undefined]. *)
Definition insert (collectionName : string) (record : addr) : M value :=
  insertMany collectionName [record] ;;
  ret VUndef.

(** [collection.data.filter(predicate)]. *)
Definition filter_data (p : Predicate) (heap : list IRecord)
    (d : JsArray addr) : list addr :=
  map snd (List.filter (fun e => p heap (snd e) (fst e) d) (entries d)).

(** [find], lines 556-569. *)
Definition find (collectionName : string) (predicate : option Predicate)
  : M (list addr) :=
  found <- find_collection collectionName ;;
  match found with
  | None => ret []
  | Some c =>
      initCollection c ;;
      col <- read_collection c ;;
      heap <- read_heap ;;
      ret (filter_data (default defaultPredicateFn predicate) heap (data col))
  end.

(** [findOne], lines 571-576: [None] is [undefined]. *)
Definition findOne (collectionName : string) (predicate : option Predicate)
  : M (option addr) :=
  found <- find collectionName predicate ;;
  ret (head found).

(** The removal loop of [delete], from the last match to the first. *)
Fixpoint remove_rows (c : addr) (descending : list nat) : M unit :=
  match descending with
  | [] => ret tt
  | index :: rest =>
      col <- read_collection c ;;
      sheet_ <- from_option TypeError (sheet col) ;;
      await (ReqRemoveRows (sheetId sheet_) (Z.of_nat index + 1) 1)
        (fun h => GoogleSheet.removeRows googleSheet h (sheetId sheet_)
                    (Z.of_nat index + 1) 1) ;;
      (fun s => (Ok tt, set_collections (delete index (collections s)) s)) ;;
      remove_rows c rest
  end.

(** [collection.data.forEach((item, i) => ...)] at the end of [delete]. *)
Fixpoint restamp (items : list (nat * addr)) : M unit :=
  match items with
  | [] => ret tt
  | (i, item) :: rest =>
      modify_record item (obj_set "_index" (VNum (Z.of_nat i))) ;;
      id <- fresh_uuid ;;
      modify_record item (obj_set "_id" (VStr id)) ;;
      restamp rest
  end.

(** [delete], lines 578-609. *)
Definition delete_ (collectionName : string) (predicate : Predicate) : M Z :=
  found <- find_collection collectionName ;;
  match found with
  | None => ret 0
  | Some c =>
      initCollection c ;;
      col <- read_collection c ;;
      heap <- read_heap ;;
      let deleteIndex :=
        map fst (List.filter
                   (fun e => predicate heap (snd e) (fst e) (data col))
                   (entries (data col))) in
      remove_rows c (rev deleteIndex) ;;
      col <- read_collection c ;;
      restamp (entries (data col)) ;;
      ret (Z.of_nat (length deleteIndex))
  end.

(** The three guards that open [update] and [refreshRecord]; nothing between
    them and the later reads of [record._index] writes to the record. *)
Definition checked (collectionName : string) (record : option addr)
  : M (addr * addr * Z) :=
  found <- find_collection collectionName ;;
  match found with
  | None => throw (Error "Collection not exists")
  | Some c =>
      match record with
      | None => throw (Error "Invalid record")
      | Some r =>
          x <- read_record r ;;
          match obj_get "_index" x with
          | VNum k => ret (c, r, k)
          | _ => throw (Error "Invalid index")
          end
      end
  end.

(** The head of [update] and [refreshRecord]: the guards, then the
    materialisation. *)
Definition checked_target (collectionName : string) (record : option addr)
  : M (addr * addr * Z) :=
  target <- checked collectionName record ;;
  initCollection (fst (fst target)) ;;
  ret target.

(** The body of [update], lines 628-659. *)
Definition write_row (c r : addr) (k : Z) : M bool :=
  col <- read_collection c ;;
  x <- read_record r ;;
  let '(col1, value_, sync) := project_record col x false in
  modify_collection c (fun _ => col1) ;;
  let values := [value_] in
  let sheetName := name col1 in
  let rangeStart := "A" +:+ pretty (k + 2) in
  letters <- lift (getColumnByIndex (Z.of_nat (length (columns col1)))) ;;
  let rangeEnd := letters +:+ pretty (Z.of_nat (length values) + k + 1) in
  (if sync then syncHeader c else ret tt) ;;
  let range := range_of sheetName rangeStart rangeEnd in
  await (ReqWriteData range values)
    (fun h => GoogleSheet.writeData googleSheet h range values) ;;
  modify_collection c (fun col => with_data (arr_set k r (data col)) col) ;;
  ret true.

(** [update], lines 611-660. *)
Definition update (collectionName : string) (record : option addr)
  : M bool :=
  target <- checked_target collectionName record ;;
  let '(c, r, k) := target in
  write_row c r k.

(** The last loop of [refreshRecord]: every own field of the record, the
    reserved two apart, takes the value read back. *)
Definition refresh_fields (item x : IRecord) : IRecord :=
  fold_left
    (fun acc key => if reserved key then acc
                    else obj_replace key (obj_get key item) acc)
    (map fst x) x.

(** [refreshRecord], lines 662-705. *)
Definition refreshRecord (collectionName : string) (record : option addr)
  : M unit :=
  target <- checked_target collectionName record ;;
  let '(c, r, k) := target in
  col <- read_collection c ;;
  let sheetName := name col in
  let rangeStart := "A" +:+ pretty (k + 2) in
  letters <- lift (getColumnByIndex (Z.of_nat (length (columns col)))) ;;
  let rangeEnd := letters +:+ pretty (1 + k + 1) in
  let range := range_of sheetName rangeStart rangeEnd in
  answer <- await (ReqReadData range)
              (fun h => GoogleSheet.readData googleSheet h range) ;;
  rows <- from_option TypeError answer ;;
  x <- read_record r ;;
  rowItem <- from_option TypeError (head rows) ;;
  item <- from_option TypeError
            (fill_item (column_map col) rowItem (columns col)
               [("_index"%string, VNum k);
                ("_id"%string, obj_get "_id" x)]) ;;
  modify_record r (refresh_fields item).

(** [refreshCollection], lines 707-730. *)
Definition refreshCollection (collectionName : string) : M unit :=
  found <- find_collection collectionName ;;
  match found with
  | None => throw (Error "Collection not exists")
  | Some c =>
      sheets <- await ReqGetSheets (GoogleSheet.getSheets googleSheet) ;;
      match List.find (fun x => String.eqb (title x) collectionName) sheets with
      | None => throw (Error "Sheet not found")
      | Some sh =>
          _collection <- getCollectionDataBySheet (Some sh) ;;
          modify_collection c (fun _ =>
            mkCollection (title sh) (Some sh) (columns _collection)
                         (column_map _collection) (data _collection)
                         (Some true))
      end
  end.

(** The loop of [refreshAll]. *)
Fixpoint push_loaded (sheets : list ISheetProperty) : M unit :=
  match sheets with
  | [] => ret tt
  | sh :: rest =>
      _collection <- getCollectionDataBySheet (Some sh) ;;
      c <- alloc_collection
             (mkCollection (title sh) (Some sh) (columns _collection)
                           (column_map _collection) (data _collection)
                           (Some true)) ;;
      (fun s => (Ok tt, set_collections (collections s ++ [c]) s)) ;;
      push_loaded rest
  end.

(** [refreshAll], lines 732-749. *)
Definition refreshAll : M unit :=
  sheets <- await ReqGetSheets (GoogleSheet.getSheets googleSheet) ;;
  (fun s => (Ok tt, set_collections [] s)) ;;
  push_loaded sheets.

End GoogleSheetDb.

(** ** Notions the statements use *)

Definition letters_of (n : nat) : string :=
  match getColumnByIndex (Z.of_nat n) with
  | Ok letters => letters
  | Err _ => ""%string
  end.

(** The rewrite of row 1 over the full width of the collection. *)
Definition header_write (col : ICollection) : request :=
  ReqWriteData
    (range_of (name col) "A1" (letters_of (length (columns col)) +:+ "1"))
    (header_values (columns col)).

(** The write of one row of cells at the remote row [k + 2]. *)
Definition row_write (col : ICollection) (k : Z) (cells : list (option value))
  : request :=
  ReqWriteData
    (range_of (name col) ("A" +:+ pretty (k + 2))
       (letters_of (length (columns col)) +:+ pretty (1 + k + 1)))
    [cells].

(** The write of a batch of rows below the [len] rows of the cache. *)
Definition rows_write (col : ICollection) (len : nat)
    (values : list (list (option value))) : request :=
  ReqWriteData
    (range_of (name col) ("A" +:+ pretty (Z.of_nat len + 2))
       (letters_of (length (columns col)) +:+
        pretty (Z.of_nat (length values) + Z.of_nat len + 1)))
    values.

Definition is_write (q : request) : bool :=
  match q with
  | ReqWriteData _ _ => true
  | _ => false
  end.

(** The errors of a wrong call of [update] or [refreshRecord]. *)
Definition usage_error (e : error) : Prop :=
  e = Error "Collection not exists" \/
  e = Error "Invalid record" \/
  e = Error "Invalid index".

(** [typeof v === 'number']. *)
Definition is_number (v : value) : bool :=
  match v with
  | VNum _ => true
  | _ => false
  end.

(** A projection changes the columns of a collection and nothing else. *)
Definition same_shell (c1 c : ICollection) : Prop :=
  name c1 = name c /\ sheet c1 = sheet c /\ data c1 = data c /\
  initialized c1 = initialized c.

(** The flag [syncHeader] of a projection is raised exactly when the column
    index grew. *)
Definition flags_growth (c c1 : ICollection) (sync sync1 : bool) : Prop :=
  (length (columns c) <= length (columns c1))%nat /\
  sync1 = sync || (length (columns c) <? length (columns c1))%nat.

(** From [s] to [s']: the requests added are no writes, no collection object
    and no record object is lost or moved, and the registry is the same. *)
Definition quiet (s s' : State) : Prop :=
  (exists w, trace s' = trace s ++ w /\ Forall (fun q => is_write q = false) w) /\
  (length (objects s) <= length (objects s'))%nat /\
  (exists more, records s' = records s ++ more) /\
  collections s' = collections s.

(** Every run of [m] takes the state along [R]. *)
Definition respects {A : Type} (R : State -> State -> Prop) (m : M A) : Prop :=
  forall s res s', m s = (res, s') -> R s s'.

(** The header write of an operation that took the column index from
    [before] to [after]: issued when a column was allocated, not otherwise. *)
Definition header_if_grown (before after : ICollection) : list request :=
  if (length (columns before) <? length (columns after))%nat
  then [header_write after] else [].

(** How an operation goes on from the state [s1] in which its collection [c]
    is found and materialised.  Either it returns [done], and then what it
    sent is the header write, if a column was allocated, followed by the data
    write [dataW], and the row cache is [cache] of what it was.  Or it fails:
    then what it sent is a beginning of that sequence, and neither the row
    cache nor any record object has changed. *)
Definition writes_in_order {A : Type} (s1 s' : State) (c : addr)
    (dataW : ICollection -> request) (res : Result A) (done : A)
    (cache : JsArray nat -> JsArray nat) : Prop :=
  let before := collection_at c s1 in
  let after := collection_at c s' in
  let hdr := header_if_grown before after in
  (res = Ok done /\
   trace s' = trace s1 ++ hdr ++ [dataW after] /\
   data after = cache (data before)) \/
  (exists e, res = Err e /\
             (trace s' = trace s1 \/ trace s' = trace s1 ++ hdr \/
              trace s' = trace s1 ++ hdr ++ [dataW after]) /\
             data after = data before /\
             records s' = records s1).

(** The collection objects are those of [s], untouched. *)
Definition same_objects (s s' : State) : Prop := objects s' = objects s.

(** The registry is the same and the collection objects below the address
    [n] are untouched. *)
Definition keeps_below (n : nat) (s s' : State) : Prop :=
  (n <= length (objects s))%nat ->
  (n <= length (objects s'))%nat /\
  collections s' = collections s /\
  forall c, (c < n)%nat -> objects s' !! c = objects s !! c.

(** Steps that leave the collection objects and the registry alone. *)
Definition local_step {A : Type} (m : M A) : Prop :=
  forall s res s', m s = (res, s') ->
                   objects s' = objects s /\ collections s' = collections s.

(** Every address in the registry is allocated. *)
Definition registry_allocated (s : State) : Prop :=
  Forall (fun c => (c < length (objects s))%nat) (collections s).

(** ** A client and states to run the operations on *)

Definition demo_sheet (t : string) : ISheetProperty :=
  mkSheet t (Some 7) (Some (mkGrid (Some 1000) (Some 26))).

(** A client that accepts every request; every sheet it is asked to read
    holds a header [name] and the four rows a, b, c, d. *)
Definition demo_client : GoogleSheet.t :=
  GoogleSheet.mk
    (fun _ => Some tt)
    (fun _ => Some [demo_sheet "people"; demo_sheet "orders"])
    (fun _ t => Some [demo_sheet "people"; demo_sheet "orders"; demo_sheet t])
    (fun _ _ => Some tt)
    (fun _ _ => Some (Some [["name"]; ["a"]; ["b"]; ["c"]; ["d"]]%string))
    (fun _ _ _ => Some tt)
    (fun _ _ _ _ => Some tt).

Definition demo_uuid (n : nat) : string := "uuid-" +:+ pretty n.

(** No collection; the caller holds the record [{name: "a"}]. *)
Definition empty_db : State :=
  mkState [] 0 [[("name", VStr "a")]]%string [] [].

(** After [initialize]: the shells of the sheets [people] and [orders].  The
    caller holds four records at the addresses 0 to 3. *)
Definition shell_db : State :=
  mkState [ReqAuthenticate; ReqGetSheets] 0
    [[("name", VStr "z")];
     [("_index", VStr "x")];
     [("_index", VNum (-1)); ("name", VStr "h")];
     [("_index", VNum 6); ("name", VStr "far")]]%string
    [mkCollection "people" (Some (demo_sheet "people")) [] empty_column_map
                  empty_array (Some false);
     mkCollection "orders" (Some (demo_sheet "orders")) [] empty_column_map
                  empty_array (Some false)]
    [0%nat; 1%nat].

(** [shell_db] once [people] has been read: the records at the addresses
    4 to 7 are its rows a, b, c, d. *)
Definition loaded_db : State :=
  snd (find demo_client demo_uuid "people" None shell_db).

(** [value => value.name === 'b' || value.name === 'd']. *)
Definition named_b_or_d : Predicate :=
  fun heap a _ _ =>
    match obj_get "name" (default [] (heap !! a)) with
    | VStr n => String.eqb n "b" || String.eqb n "d"
    | _ => false
    end.

(** ** Theorems about the column letters *)

Lemma getColumnByIndex_nonpositive (n : Z) :
  n <= 0 -> getColumnByIndex n = Err (Error "Index out range").
Proof.
  intros Hn. unfold getColumnByIndex.
  destruct (Z.leb_spec n 0) as [_ | Hgt]; [reflexivity | lia].
Qed.


Lemma encodes_upto_702 :
  forallb encodes (map Z.of_nat (seq 1 702)) = true.
Proof. vm_compute. reflexivity. Qed.

Lemma getColumnByIndex_two_letters (n : Z) :
  1 <= n <= 702 ->
  exists s, getColumnByIndex n = Ok s /\ column_value s = Some n.
Proof.
  intros Hn.
  pose proof encodes_upto_702 as Hall.
  rewrite forallb_forall in Hall.
  assert (Hin : In n (map Z.of_nat (seq 1 702))).
  { apply in_map_iff. exists (Z.to_nat n). split; [lia |].
    apply in_seq. lia. }
  specialize (Hall n Hin). unfold encodes in Hall.
  destruct (getColumnByIndex n) as [s | e]; [| discriminate].
  exists s. split; [reflexivity |].
  apply bool_decide_eq_true in Hall. exact Hall.
Qed.

Lemma getColumnByIndex_injective_upto_702 (n m : Z) :
  1 <= n <= 702 -> 1 <= m <= 702 ->
  getColumnByIndex n = getColumnByIndex m -> n = m.
Proof.
  intros Hn Hm Heq.
  destruct (getColumnByIndex_two_letters n Hn) as (s & Hs & Hv).
  destruct (getColumnByIndex_two_letters m Hm) as (t & Ht & Hw).
  rewrite Hs, Ht in Heq. injection Heq as <-.
  rewrite Hv in Hw. now injection Hw.
Qed.

(** C1. The claim asks for the bijective base-26 numeral of every n >= 1 and
    an injective encoding.  The code has one- and two-letter cases only: at
    703, the first offset that needs three letters, it reads [AZ] past its end
    and returns "undefinedA", which is no numeral, and 729 is sent to the same
    string, so the encoding is not injective. *)
Theorem getColumnByIndex_703_garbled :
  getColumnByIndex 703 = Ok "undefinedA"%string /\
  column_value "undefinedA" = None /\
  column_value "AAA" = Some 703 /\
  getColumnByIndex 729 = getColumnByIndex 703.
Proof. vm_compute. repeat split. Qed.

(** ** The monad *)

Lemma bind_ok {A B : Type} (m : M A) (f : A -> M B) s b s' :
  bind m f s = (Ok b, s') ->
  exists a s1, m s = (Ok a, s1) /\ f a s1 = (Ok b, s').
Proof.
  unfold bind. destruct (m s) as [[a | e] s1]; intros H.
  - exists a, s1. split; [reflexivity | exact H].
  - discriminate.
Qed.

Lemma bind_cases {A B : Type} (m : M A) (f : A -> M B) s r s' :
  bind m f s = (r, s') ->
  (exists e, m s = (Err e, s') /\ r = Err e) \/
  (exists a s1, m s = (Ok a, s1) /\ f a s1 = (r, s')).
Proof.
  unfold bind. destruct (m s) as [[a | e] s1]; intros H.
  - right. exists a, s1. split; [reflexivity | exact H].
  - left. exists e. inversion H; subst. split; reflexivity.
Qed.

Lemma bind_step {A B : Type} (m : M A) (f : A -> M B) s a s1 :
  m s = (Ok a, s1) -> bind m f s = f a s1.
Proof. intros H. unfold bind. rewrite H. reflexivity. Qed.

Lemma bind_fail {A B : Type} (m : M A) (f : A -> M B) s e s1 :
  m s = (Err e, s1) -> bind m f s = (Err e, s1).
Proof. intros H. unfold bind. rewrite H. reflexivity. Qed.

(** ** Guards, missing collections, materialised collections *)

Section Guards.

Variable googleSheet : GoogleSheet.t.
Variable uuid : nat -> string.

Lemma checked_missing collectionName record s :
  registered collectionName s = None ->
  checked collectionName record s = (Err (Error "Collection not exists"), s).
Proof.
  intros H. unfold checked, bind, find_collection. rewrite H. reflexivity.
Qed.

Lemma checked_rejects collectionName record s :
  registered collectionName s = None \/
  record = None \/
  (exists r, record = Some r /\
             is_number (obj_get "_index" (record_at r s)) = false) ->
  exists e, usage_error e /\ checked collectionName record s = (Err e, s).
Proof.
  intros H. unfold usage_error.
  destruct (registered collectionName s) as [c |] eqn:Hreg.
  - destruct record as [r |].
    + destruct H as [H | [H | (r' & Hr & Hnum)]]; try discriminate.
      injection Hr as <-.
      exists (Error "Invalid index"). split; [auto |].
      unfold checked, bind, find_collection, read_record. rewrite Hreg.
      destruct (obj_get "_index" (record_at r s)); try reflexivity.
      discriminate.
    + exists (Error "Invalid record"). split; [auto |].
      unfold checked, bind, find_collection. rewrite Hreg. reflexivity.
  - exists (Error "Collection not exists"). split; [auto |].
    apply checked_missing. exact Hreg.
Qed.

Lemma initCollection_initialized c s :
  initialized (collection_at c s) = Some true ->
  initCollection googleSheet uuid c s = (Ok tt, s).
Proof.
  intros H. unfold initCollection, bind, read_collection.
  rewrite H. reflexivity.
Qed.

Lemma find_initialized collectionName c predicate s :
  registered collectionName s = Some c ->
  initialized (collection_at c s) = Some true ->
  find googleSheet uuid collectionName predicate s =
  (Ok (filter_data (default defaultPredicateFn predicate) (records s)
                   (data (collection_at c s))), s).
Proof.
  intros Hreg Hinit. unfold find.
  rewrite (bind_step _ _ s (Some c) s) by (unfold find_collection; now rewrite Hreg).
  rewrite (bind_step _ _ s tt s) by (now apply initCollection_initialized).
  reflexivity.
Qed.

(** C4. A call of [update] for a collection the registry does not hold, or
    with a null record, or with a record whose [_index] is not a number,
    ends in a usage error and in the very state it started from: no request
    was sent, and the registry, the column index and the row cache are as
    they were. *)
Theorem update_rejects_bad_usage collectionName record s :
  registered collectionName s = None \/
  record = None \/
  (exists r, record = Some r /\
             is_number (obj_get "_index" (record_at r s)) = false) ->
  exists e, usage_error e /\
            update googleSheet uuid collectionName record s = (Err e, s).
Proof.
  intros H. destruct (checked_rejects collectionName record s H) as (e & He & Hc).
  exists e. split; [exact He |].
  unfold update, checked_target.
  apply bind_fail. apply bind_fail. exact Hc.
Qed.

(** C9. For a name the registry does not hold, [find] returns the empty
    list and [delete] returns 0, both in the state they started from (no
    request, no change), while [update] and [refreshRecord] throw. *)
Theorem missing_collection_is_empty collectionName predicate condition
    record s :
  registered collectionName s = None ->
  find googleSheet uuid collectionName predicate s = (Ok [], s) /\
  delete_ googleSheet uuid collectionName condition s = (Ok 0, s) /\
  update googleSheet uuid collectionName record s =
    (Err (Error "Collection not exists"), s) /\
  refreshRecord googleSheet uuid collectionName record s =
    (Err (Error "Collection not exists"), s).
Proof.
  intros H. repeat split.
  - unfold find, bind, find_collection. rewrite H. reflexivity.
  - unfold delete_, bind, find_collection. rewrite H. reflexivity.
  - unfold update, checked_target. apply bind_fail. apply bind_fail.
    apply checked_missing. exact H.
  - unfold refreshRecord, checked_target. apply bind_fail. apply bind_fail.
    apply checked_missing. exact H.
Qed.

(** C5. On a collection whose [initialized] flag is true, [initCollection]
    does nothing; so [find] and [findOne], once or twice in a row, answer
    from the row cache and leave the whole state, the trace of requests and
    the column index and row cache with it, as it was. *)
Theorem initialized_reads_are_local collectionName c predicate s :
  registered collectionName s = Some c ->
  initialized (collection_at c s) = Some true ->
  initCollection googleSheet uuid c s = (Ok tt, s) /\
  exists found,
    find googleSheet uuid collectionName predicate s = (Ok found, s) /\
    findOne googleSheet uuid collectionName predicate s =
      (Ok (head found), s) /\
    (find googleSheet uuid collectionName predicate ;;
     find googleSheet uuid collectionName predicate) s = (Ok found, s).
Proof.
  intros Hreg Hinit.
  pose proof (find_initialized collectionName c predicate s Hreg Hinit) as Hf.
  split; [now apply initCollection_initialized |].
  eexists. split; [exact Hf |]. split.
  - unfold findOne. rewrite (bind_step _ _ _ _ _ Hf). reflexivity.
  - rewrite (bind_step _ _ _ _ _ Hf). exact Hf.
Qed.

End Guards.

(** ** Projection on the columns *)


Lemma same_shell_refl c : same_shell c c.
Proof. repeat split. Qed.

Lemma same_shell_trans c2 c1 c :
  same_shell c2 c1 -> same_shell c1 c -> same_shell c2 c.
Proof.
  intros (? & ? & ? & ?) (? & ? & ? & ?). repeat split; congruence.
Qed.

Lemma project_field_frame x c row sync y :
  same_shell (fst (fst (project_field x (c, row, sync) y))) c.
Proof.
  unfold project_field.
  destruct (cm_truthy (cm_get y (column_map c)));
    match goal with |- context [match cm_get ?k ?m with _ => _ end] =>
      destruct (cm_get k m) end; simpl; repeat split.
Qed.

Lemma project_record_frame c x sync :
  same_shell (fst (fst (project_record c x sync))) c.
Proof.
  unfold project_record.
  generalize (@nil (option value)) as row. revert c sync.
  induction (rColumns x) as [| y ys IH]; intros c sync row; cbn [fold_left].
  - apply same_shell_refl.
  - pose proof (project_field_frame x c row sync y) as Hf.
    destruct (project_field x (c, row, sync) y) as [[c1 row1] sync1].
    eapply same_shell_trans; [apply IH | exact Hf].
Qed.

Lemma project_records_frame c xs sync :
  same_shell (fst (fst (project_records c xs sync))) c /\
  length (snd (fst (project_records c xs sync))) = length xs.
Proof.
  revert c sync.
  induction xs as [| x xs IH]; intros c sync; cbn [project_records].
  - split; [apply same_shell_refl | reflexivity].
  - pose proof (project_record_frame c x sync) as Hf.
    destruct (project_record c x sync) as [[c1 row] sync1].
    specialize (IH c1 sync1).
    destruct (project_records c1 xs sync1) as [[c2 rows] sync2].
    simpl in *. destruct IH as [IH Hlen]. split.
    + eapply same_shell_trans; [exact IH | exact Hf].
    + now rewrite Hlen.
Qed.

(** ** What [insert] and [insertMany] return *)

Section Counts.

Variable googleSheet : GoogleSheet.t.
Variable uuid : nat -> string.


End Counts.

(** ** The effects of the steps *)

Lemma registered_live collectionName s c :
  registered collectionName s = Some c ->
  exists col, objects s !! c = Some col /\ name col = collectionName.
Proof.
  unfold registered. intros H. apply find_some in H as [_ H].
  unfold named in H. destruct (objects s !! c) as [col |]; [| discriminate].
  exists col. split; [reflexivity |]. now apply String.eqb_eq.
Qed.

Lemma lookup_live {A : Type} (l : list A) (i : nat) (x : A) :
  l !! i = Some x -> (i < length l)%nat.
Proof. intros H. apply lookup_lt_Some in H. exact H. Qed.

Lemma collection_at_insert c col heap s :
  (c < length heap)%nat ->
  collection_at c (set_objects (<[c := col]> heap) s) = col.
Proof.
  intros H. unfold collection_at. simpl.
  rewrite list_lookup_insert_eq by exact H. reflexivity.
Qed.

Lemma letters_of_ok n letters :
  getColumnByIndex (Z.of_nat n) = Ok letters -> letters_of n = letters.
Proof. intros H. unfold letters_of. rewrite H. reflexivity. Qed.

Section Effects.

Variable googleSheet : GoogleSheet.t.
Variable uuid : nat -> string.

Lemma await_cases {A : Type} q (answer : list request -> option A) s res s' :
  await q answer s = (res, s') ->
  s' = set_trace (trace s ++ [q]) s /\
  (res = Err RemoteFailure \/ exists a, res = Ok a).
Proof.
  unfold await. destruct (answer (trace s)) as [a |]; intros H;
    injection H as <- <-; split; eauto.
Qed.

Lemma syncHeader_cases c s res s' :
  syncHeader googleSheet c s = (res, s') ->
  (exists e, res = Err e /\ s' = s) \/
  (s' = set_trace (trace s ++ [header_write (collection_at c s)]) s /\
   (res = Ok tt \/ res = Err RemoteFailure)).
Proof.
  unfold syncHeader, bind, read_collection, lift.
  destruct (getColumnByIndex (Z.of_nat (length (columns (collection_at c s)))))
    as [letters | e] eqn:Hl.
  - intros H. right. apply await_cases in H as [-> Hres].
    unfold header_write. rewrite (letters_of_ok _ _ Hl). split; [reflexivity |].
    destruct Hres as [-> | [[] ->]]; auto.
  - intros H. injection H as <- <-. left. eauto.
Qed.

(** The body of [update], case by case. *)
Lemma write_row_cases c r k s1 res s' :
  (c < length (objects s1))%nat ->
  write_row googleSheet c r k s1 = (res, s') ->
  let p := project_record (collection_at c s1) (record_at r s1) false in
  let col1 := fst (fst p) in
  let cells := snd (fst p) in
  let hdr := if snd p then [header_write col1] else [] in
  (res = Ok true /\
   s' = set_objects
          (<[c := with_data (arr_set k r (data col1)) col1]> (objects s1))
          (set_trace (trace s1 ++ hdr ++ [row_write col1 k cells]) s1) /\
   getColumnByIndex (Z.of_nat (length (columns col1))) =
     Ok (letters_of (length (columns col1)))) \/
  (exists e w,
      res = Err e /\
      s' = set_objects (<[c := col1]> (objects s1))
             (set_trace (trace s1 ++ w) s1) /\
      (w = [] \/ w = hdr \/ w = hdr ++ [row_write col1 k cells])).
Proof.
  intros Hlive. unfold write_row.
  unfold bind at 1 2. unfold read_collection, read_record.
  destruct (project_record (collection_at c s1) (record_at r s1) false)
    as [[col1 cells] sync] eqn:Hp.
  cbn [fst snd]. intros H.
  apply bind_cases in H as [(e & H & ->) | ([] & s2 & Hm & H)];
    [discriminate |].
  injection Hm as <-.
  apply bind_cases in H as [(e & H & ->) | (letters & s3 & Hl & H)].
  { right. exists e, []. split; [reflexivity |].
    unfold lift in H. injection H as _ <-.
    rewrite app_nil_r. split; [| auto]. reflexivity. }
  unfold lift in Hl. injection Hl as Hl <-.
  pose proof (letters_of_ok _ _ Hl) as Hlet.
  pose proof (collection_at_insert c col1 (objects s1) s1 Hlive) as Hat.
  apply bind_cases in H as [(e & H & ->) | ([] & s3 & Hs & H)].
  { right. destruct sync.
    - apply syncHeader_cases in H as [(e' & _ & ->) | [-> _]].
      + exists e, []. rewrite app_nil_r. repeat split; auto.
      + rewrite Hat. exists e, [header_write col1]. repeat split; auto.
    - unfold ret in H. discriminate. }
  assert (Hs3 : s3 = set_trace
                       (trace s1 ++ (if sync then [header_write col1] else []))
                       (set_objects (<[c:=col1]> (objects s1)) s1)).
  { destruct sync.
    - apply syncHeader_cases in Hs as [(e' & He & _) | [-> _]];
        [discriminate | now rewrite Hat].
    - unfold ret in Hs. injection Hs as <-. rewrite app_nil_r. reflexivity. }
  clear Hs.
  apply bind_cases in H as [(e & H & ->) | ([] & s4 & Hw & H)].
  { right. apply await_cases in H as [-> _].
    exists e, ((if sync then [header_write col1] else []) ++ [row_write col1 k cells]).
    split; [reflexivity |]. split; [| auto].
    subst s3. unfold row_write. rewrite Hlet. simpl. rewrite <- app_assoc.
    reflexivity. }
  apply await_cases in Hw as [-> _].
  unfold bind, modify_collection, ret in H. injection H as <- <-.
  left. split; [reflexivity |]. split; [| now rewrite Hlet].
  subst s3. unfold row_write. rewrite Hlet.
  unfold collection_at at 1 2. simpl.
  rewrite list_lookup_insert_eq by exact Hlive. simpl.
  rewrite list_insert_insert_eq, <- app_assoc. reflexivity.
Qed.

End Effects.

(** ** Steps that send no write and keep what is allocated *)


Lemma quiet_refl s : quiet s s.
Proof.
  repeat split.
  - exists []. rewrite app_nil_r. split; [reflexivity | constructor].
  - lia.
  - exists []. now rewrite app_nil_r.
Qed.

Lemma quiet_trans s1 s2 s3 : quiet s1 s2 -> quiet s2 s3 -> quiet s1 s3.
Proof.
  intros ((w1 & Ht1 & Hw1) & Hl1 & (m1 & Hr1) & Hc1)
         ((w2 & Ht2 & Hw2) & Hl2 & (m2 & Hr2) & Hc2).
  repeat split.
  - exists (w1 ++ w2). rewrite Ht2, Ht1, app_assoc. split; [reflexivity |].
    apply Forall_app. split; assumption.
  - lia.
  - exists (m1 ++ m2). now rewrite Hr2, Hr1, app_assoc.
  - congruence.
Qed.


Section Respects.

Variable R : State -> State -> Prop.
Hypothesis R_refl : forall s, R s s.
Hypothesis R_trans : forall s1 s2 s3, R s1 s2 -> R s2 s3 -> R s1 s3.

Lemma respects_pure {A : Type} (r : Result A) : respects R (lift r).
Proof. intros s res s' H. injection H as _ <-. apply R_refl. Qed.

Lemma respects_ret {A : Type} (a : A) : respects R (ret a).
Proof. apply (respects_pure (Ok a)). Qed.

Lemma respects_throw {A : Type} (e : error) : respects R (@throw A e).
Proof. apply (respects_pure (Err e)). Qed.

Lemma respects_read {A : Type} (g : State -> A) :
  respects R (fun s => (Ok (g s), s)).
Proof. intros s res s' H. injection H as _ <-. apply R_refl. Qed.

Lemma respects_read_collection c : respects R (read_collection c).
Proof. apply (respects_read (collection_at c)). Qed.

Lemma respects_read_record a : respects R (read_record a).
Proof. apply (respects_read (record_at a)). Qed.

Lemma respects_read_heap : respects R read_heap.
Proof. apply (respects_read records). Qed.

Lemma respects_find_collection n : respects R (find_collection n).
Proof. apply (respects_read (registered n)). Qed.

Lemma respects_from_option {A : Type} e (o : option A) :
  respects R (from_option e o).
Proof. destruct o; [apply respects_ret | apply respects_throw]. Qed.

Lemma respects_bind {A B : Type} (m : M A) (f : A -> M B) :
  respects R m -> (forall a, respects R (f a)) -> respects R (bind m f).
Proof.
  intros Hm Hf s res s' H.
  apply bind_cases in H as [(e & H & _) | (a & s1 & H1 & H2)].
  - eapply Hm; eassumption.
  - eapply R_trans; [eapply Hm | eapply Hf]; eassumption.
Qed.

End Respects.

Lemma quiet_await {A : Type} q (answer : list request -> option A) :
  is_write q = false -> respects quiet (await q answer).
Proof.
  intros Hq s res s' H. unfold await in H.
  assert (s' = set_trace (trace s ++ [q]) s) as ->
    by (destruct (answer (trace s)); now injection H as _ <-).
  repeat split; simpl.
  - exists [q]. split; [reflexivity |]. constructor; [exact Hq | constructor].
  - lia.
  - exists []. now rewrite app_nil_r.
Qed.

Lemma quiet_modify_collection c f : respects quiet (modify_collection c f).
Proof.
  intros s res s' H. injection H as _ <-. repeat split; simpl.
  - exists []. rewrite app_nil_r. split; [reflexivity | constructor].
  - rewrite length_insert. lia.
  - exists []. now rewrite app_nil_r.
Qed.

Lemma quiet_alloc_collection o : respects quiet (alloc_collection o).
Proof.
  intros s res s' H. injection H as _ <-. repeat split; simpl.
  - exists []. rewrite app_nil_r. split; [reflexivity | constructor].
  - rewrite length_app. lia.
  - exists []. now rewrite app_nil_r.
Qed.

Lemma quiet_alloc_record o : respects quiet (alloc_record o).
Proof.
  intros s res s' H. injection H as _ <-. repeat split; simpl.
  - exists []. rewrite app_nil_r. split; [reflexivity | constructor].
  - lia.
  - exists [o]. reflexivity.
Qed.

Section Quiet.

Variable googleSheet : GoogleSheet.t.
Variable uuid : nat -> string.

Ltac quiet_bind :=
  apply (respects_bind quiet quiet_trans); [| intros ?].

Tactic Notation "quiet_bind" "as" ident(x) :=
  apply (respects_bind quiet quiet_trans); [| intros x].

Lemma quiet_fresh_uuid : respects quiet (fresh_uuid uuid).
Proof.
  intros s res s' H. injection H as _ <-. repeat split; simpl.
  - exists []. rewrite app_nil_r. split; [reflexivity | constructor].
  - lia.
  - exists []. now rewrite app_nil_r.
Qed.

Lemma quiet_read_rows cols cm index rows :
  respects quiet (read_rows uuid cols cm index rows).
Proof.
  revert index. induction rows as [| x rest IH]; intros index; simpl.
  - apply (respects_ret quiet quiet_refl).
  - quiet_bind; [apply quiet_fresh_uuid |].
    quiet_bind; [apply (respects_from_option quiet quiet_refl) |].
    quiet_bind; [apply quiet_alloc_record |].
    quiet_bind; [apply IH |].
    apply (respects_ret quiet quiet_refl).
Qed.

Lemma quiet_getCollectionDataBySheet sh :
  respects quiet (getCollectionDataBySheet googleSheet uuid sh).
Proof.
  unfold getCollectionDataBySheet.
  quiet_bind; [apply (respects_from_option quiet quiet_refl) |].
  quiet_bind as grid; [apply (respects_from_option quiet quiet_refl) |].
  destruct (truthy_count (rowCount grid) && truthy_count (columnCount grid)).
  - quiet_bind; [apply (respects_pure quiet quiet_refl) |].
    quiet_bind; [apply (respects_pure quiet quiet_refl) |].
    quiet_bind; [now apply quiet_await |].
    quiet_bind as rows; [apply (respects_from_option quiet quiet_refl) |].
    destruct rows as [| headerRow rest].
    + apply (respects_throw quiet quiet_refl).
    + destruct (read_header headerRow) as [cols cm].
      quiet_bind; [apply quiet_read_rows |].
      apply (respects_ret quiet quiet_refl).
  - apply (respects_ret quiet quiet_refl).
Qed.

Lemma quiet_initCollection c :
  respects quiet (initCollection googleSheet uuid c).
Proof.
  unfold initCollection.
  quiet_bind as col; [apply (respects_read_collection quiet quiet_refl) |].
  destruct (truthy_flag (initialized col)).
  - apply (respects_ret quiet quiet_refl).
  - quiet_bind; [apply quiet_getCollectionDataBySheet |].
    apply quiet_modify_collection.
Qed.

Lemma quiet_createSheet collectionName :
  respects quiet (createSheet googleSheet collectionName).
Proof.
  unfold createSheet.
  quiet_bind as sheets; [now apply quiet_await |].
  destruct (List.find _ sheets) as [sh |].
  - quiet_bind; [now apply quiet_await |].
    apply (respects_ret quiet quiet_refl).
  - apply (respects_throw quiet quiet_refl).
Qed.

Lemma quiet_insert_target collectionName :
  respects quiet (insert_target googleSheet uuid collectionName).
Proof.
  unfold insert_target.
  quiet_bind as found; [apply (respects_find_collection quiet quiet_refl) |].
  quiet_bind.
  { destruct found; [apply (respects_ret quiet quiet_refl) |
                     apply quiet_alloc_collection]. }
  quiet_bind as col; [apply (respects_read_collection quiet quiet_refl) |].
  quiet_bind; [| apply (respects_ret quiet quiet_refl)].
  destruct (sheet col).
  - apply quiet_initCollection.
  - quiet_bind; [apply quiet_createSheet | apply quiet_modify_collection].
Qed.

Lemma checked_cases collectionName record s res s' :
  checked collectionName record s = (res, s') ->
  s' = s /\
  ((exists e, res = Err e /\ usage_error e) \/
   (exists c r k, res = Ok (c, r, k) /\
                  registered collectionName s = Some c /\
                  record = Some r /\
                  obj_get "_index" (record_at r s) = VNum k)).
Proof.
  unfold checked, bind, find_collection, read_record, usage_error.
  destruct (registered collectionName s) as [c |].
  - destruct record as [r |].
    + destruct (obj_get "_index" (record_at r s)) eqn:Hidx;
        intros H; injection H as <- <-; split; eauto 8.
    + intros H. injection H as <- <-. split; eauto 8.
  - intros H. injection H as <- <-. split; eauto 8.
Qed.

Lemma quiet_checked_target collectionName record :
  respects quiet (checked_target googleSheet uuid collectionName record).
Proof.
  unfold checked_target.
  quiet_bind.
  { intros s res s' H. apply checked_cases in H as [-> _]. apply quiet_refl. }
  quiet_bind; [apply quiet_initCollection |].
  apply (respects_ret quiet quiet_refl).
Qed.

(** When the head of [update] passes, the guards held and the collection
    object is allocated. *)
Lemma checked_target_ok collectionName record s c r k s1 :
  checked_target googleSheet uuid collectionName record s = (Ok (c, r, k), s1) ->
  registered collectionName s = Some c /\
  record = Some r /\
  obj_get "_index" (record_at r s) = VNum k /\
  initCollection googleSheet uuid c s = (Ok tt, s1) /\
  (c < length (objects s1))%nat.
Proof.
  intros H. unfold checked_target in H.
  apply bind_ok in H as (target & s0 & Hc & H).
  apply checked_cases in Hc as [-> [(e & He & _) | (c0 & r0 & k0 & Ht & Hreg & Hrec & Hidx)]];
    [discriminate |].
  injection Ht as ->.
  apply bind_ok in H as ([] & s2 & Hinit & H).
  unfold ret in H. injection H as -> -> -> ->.
  simpl in Hinit. repeat split; try assumption.
  apply quiet_initCollection in Hinit as (_ & Hlen & _).
  apply registered_live in Hreg as (col & Hcol & _).
  apply lookup_live in Hcol. lia.
Qed.

End Quiet.

(** ** Arrays *)







(** ** When the header is rewritten *)


Lemma flags_growth_refl c sync : flags_growth c c sync sync.
Proof.
  split; [lia |]. rewrite Nat.ltb_irrefl. now rewrite orb_false_r.
Qed.

Lemma flags_growth_trans c c1 c2 sync sync1 sync2 :
  flags_growth c c1 sync sync1 -> flags_growth c1 c2 sync1 sync2 ->
  flags_growth c c2 sync sync2.
Proof.
  intros [Hl1 ->] [Hl2 ->]. split; [lia |].
  destruct sync; simpl; [reflexivity |].
  destruct (Nat.ltb_spec (length (columns c)) (length (columns c1)));
    destruct (Nat.ltb_spec (length (columns c1)) (length (columns c2)));
    destruct (Nat.ltb_spec (length (columns c)) (length (columns c2)));
    simpl; try reflexivity; lia.
Qed.

Lemma project_field_growth x c row sync y :
  flags_growth c (fst (fst (project_field x (c, row, sync) y)))
               sync (snd (project_field x (c, row, sync) y)).
Proof.
  unfold project_field.
  destruct (cm_truthy (cm_get y (column_map c))).
  - destruct (cm_get y (column_map c)); simpl; apply flags_growth_refl.
  - match goal with |- context [match cm_get ?k ?m with _ => _ end] =>
      destruct (cm_get k m) end; simpl;
      (split; simpl; [rewrite length_app; simpl; lia |]);
      rewrite length_app; simpl;
      (destruct (Nat.ltb_spec (length (columns c)) (length (columns c) + 1));
       [now rewrite orb_true_r | lia]).
Qed.

Lemma project_record_growth c x sync :
  flags_growth c (fst (fst (project_record c x sync)))
               sync (snd (project_record c x sync)).
Proof.
  unfold project_record.
  generalize (@nil (option value)) as row. revert c sync.
  induction (rColumns x) as [| y ys IH]; intros c sync row; cbn [fold_left].
  - apply flags_growth_refl.
  - pose proof (project_field_growth x c row sync y) as Hf.
    destruct (project_field x (c, row, sync) y) as [[c1 row1] sync1].
    eapply flags_growth_trans; [exact Hf | apply IH].
Qed.

Lemma project_records_growth c xs sync :
  flags_growth c (fst (fst (project_records c xs sync)))
               sync (snd (project_records c xs sync)).
Proof.
  revert c sync.
  induction xs as [| x xs IH]; intros c sync; cbn [project_records].
  - apply flags_growth_refl.
  - pose proof (project_record_growth c x sync) as Hf.
    destruct (project_record c x sync) as [[c1 row] sync1].
    specialize (IH c1 sync1).
    destruct (project_records c1 xs sync1) as [[c2 rows] sync2].
    eapply flags_growth_trans; [exact Hf | exact IH].
Qed.

(** ** [update] *)

Section Update.

Variable googleSheet : GoogleSheet.t.
Variable uuid : nat -> string.






End Update.

(** ** [insertMany] *)

Section Insert.

Variable googleSheet : GoogleSheet.t.
Variable uuid : nat -> string.

(** Stamping never fails and touches the record objects only. *)
Lemma stamp_effect c i items s :
  exists s', stamp uuid c i items s = (Ok tt, s') /\
             trace s' = trace s /\ objects s' = objects s /\
             collections s' = collections s.
Proof.
  revert i s. induction items as [| item rest IH]; intros i s; simpl.
  - exists s. repeat split.
  - unfold bind at 1 2 3 4. unfold read_collection, modify_record, fresh_uuid.
    match goal with |- context [stamp uuid c (S i) rest ?t] =>
      destruct (IH (S i) t) as (s' & Hs & Ht & Ho & Hc) end.
    exists s'. repeat split; assumption.
Qed.

(** The body of [insertMany], case by case. *)
Lemma append_rows_cases c recs s1 res s' :
  (c < length (objects s1))%nat ->
  append_rows googleSheet uuid c recs s1 = (res, s') ->
  let p := project_records (collection_at c s1)
             (map (fun a => default [] (records s1 !! a)) recs) false in
  let col1 := fst (fst p) in
  let values := snd (fst p) in
  let hdr := if snd p then [header_write col1] else [] in
  let dataW := rows_write col1 (length (elems (data col1))) values in
  (res = Ok (Z.of_nat (length values)) /\
   trace s' = trace s1 ++ hdr ++ [dataW] /\
   collection_at c s' = with_data (arr_push recs (data col1)) col1) \/
  (exists e w,
      res = Err e /\
      s' = set_objects (<[c := col1]> (objects s1))
             (set_trace (trace s1 ++ w) s1) /\
      (w = [] \/ w = hdr \/ w = hdr ++ [dataW])).
Proof.
  intros Hlive. unfold append_rows.
  unfold bind at 1 2. unfold read_collection, read_heap.
  destruct (project_records (collection_at c s1)
              (map (fun a => default [] (records s1 !! a)) recs) false)
    as [[col1 values] sync] eqn:Hp.
  cbn [fst snd]. intros H.
  apply bind_cases in H as [(e & H & ->) | ([] & s2 & Hm & H)];
    [discriminate |].
  injection Hm as <-.
  apply bind_cases in H as [(e & H & ->) | (letters & s3 & Hl & H)].
  { right. exists e, []. split; [reflexivity |].
    unfold lift in H. injection H as _ <-.
    rewrite app_nil_r. split; [| auto]. reflexivity. }
  unfold lift in Hl. injection Hl as Hl <-.
  pose proof (letters_of_ok _ _ Hl) as Hlet.
  pose proof (collection_at_insert c col1 (objects s1) s1 Hlive) as Hat.
  apply bind_cases in H as [(e & H & ->) | ([] & s3 & Hs & H)].
  { right. destruct sync.
    - apply syncHeader_cases in H as [(e' & _ & ->) | [-> _]].
      + exists e, []. rewrite app_nil_r. repeat split; auto.
      + rewrite Hat. exists e, [header_write col1]. repeat split; auto.
    - unfold ret in H. discriminate. }
  assert (Hs3 : s3 = set_trace
                       (trace s1 ++ (if sync then [header_write col1] else []))
                       (set_objects (<[c:=col1]> (objects s1)) s1)).
  { destruct sync.
    - apply syncHeader_cases in Hs as [(e' & He & _) | [-> _]];
        [discriminate | now rewrite Hat].
    - unfold ret in Hs. injection Hs as <-. rewrite app_nil_r. reflexivity. }
  clear Hs.
  apply bind_cases in H as [(e & H & ->) | ([] & s4 & Hw & H)].
  { right. apply await_cases in H as [-> _].
    exists e, ((if sync then [header_write col1] else []) ++
               [rows_write col1 (length (elems (data col1))) values]).
    split; [reflexivity |]. split; [| auto].
    subst s3. unfold rows_write. rewrite Hlet. simpl. rewrite <- app_assoc.
    reflexivity. }
  apply await_cases in Hw as [-> _].
  destruct (stamp_effect c 0 recs
              (set_trace
                 (trace s3 ++
                  [ReqWriteData
                     (range_of (name col1)
                        ("A" +:+ pretty (Z.of_nat (length (elems (data col1))) + 2))
                        (letters +:+
                         pretty (Z.of_nat (length values) +
                                 Z.of_nat (length (elems (data col1))) + 1)))
                     values]) s3))
    as (s5 & Hst & Ht5 & Ho5 & _).
  rewrite (bind_step _ _ _ _ _ Hst) in H.
  unfold bind, modify_collection, ret in H. injection H as <- <-.
  left. split; [reflexivity |].
  subst s3. simpl in Ht5, Ho5. split.
  - simpl. rewrite Ht5. unfold rows_write. rewrite Hlet, <- app_assoc.
    reflexivity.
  - unfold collection_at at 1. simpl.
    unfold collection_at. rewrite Ho5.
    rewrite !list_lookup_insert_eq by (rewrite ?length_insert; exact Hlive).
    reflexivity.
Qed.




End Insert.

(** ** The order of the writes *)



Section Ordering.

Variable googleSheet : GoogleSheet.t.
Variable uuid : nat -> string.

Lemma insert_target_live collectionName s c s1 :
  insert_target googleSheet uuid collectionName s = (Ok c, s1) ->
  (c < length (objects s1))%nat.
Proof.
  unfold insert_target. intros H.
  apply bind_ok in H as (found & s0 & Hf & H).
  injection Hf as <- <-.
  apply bind_ok in H as (c0 & s0 & Hc & H).
  assert (Hlive : (c0 < length (objects s0))%nat).
  { destruct (registered collectionName s) as [c1 |] eqn:Hreg.
    - injection Hc as <- <-.
      apply registered_live in Hreg as (col & Hcol & _).
      now apply lookup_live in Hcol.
    - injection Hc as <- <-. simpl. rewrite length_app. simpl. lia. }
  apply bind_ok in H as (col & s2 & Hr & H). injection Hr as <- <-.
  apply bind_ok in H as ([] & s3 & Hstep & H).
  unfold ret in H. injection H as <- <-.
  assert (Hq : quiet s0 s3).
  { destruct (sheet (collection_at c0 s0)).
    - eapply quiet_initCollection; eassumption.
    - eapply (respects_bind quiet quiet_trans); [| | eassumption].
      + apply quiet_createSheet.
      + intros sh. apply quiet_modify_collection. }
  destruct Hq as (_ & Hlen & _). lia.
Qed.

Lemma insertMany_order collectionName recs s res s' :
  recs <> [] ->
  insertMany googleSheet uuid collectionName recs s = (res, s') ->
  (exists e, res = Err e /\
             insert_target googleSheet uuid collectionName s = (Err e, s') /\
             quiet s s') \/
  (exists c s1 values,
      insert_target googleSheet uuid collectionName s = (Ok c, s1) /\
      quiet s s1 /\
      length values = length recs /\
      writes_in_order s1 s' c
        (fun after =>
           rows_write after (length (elems (data (collection_at c s1))))
                      values)
        res (Z.of_nat (length recs)) (arr_push recs)).
Proof.
  intros Hne H. unfold insertMany in H.
  destruct (length recs =? 0)%nat eqn:Hempty.
  { apply Nat.eqb_eq in Hempty. destruct recs; [contradiction | discriminate]. }
  apply bind_cases in H as [(e & H & ->) | (c & s1 & Ht & H)].
  { left. exists e. split; [reflexivity |]. split; [exact H |].
    eapply quiet_insert_target; exact H. }
  right.
  pose proof (insert_target_live _ _ _ _ Ht) as Hlive.
  pose proof (quiet_insert_target _ _ _ _ _ _ Ht) as Hq.
  apply append_rows_cases in H; [| exact Hlive].
  pose proof (project_records_frame (collection_at c s1)
                (map (fun a => default [] (records s1 !! a)) recs) false)
    as [(_ & _ & Hdata & _) Hlen].
  pose proof (project_records_growth (collection_at c s1)
                (map (fun a => default [] (records s1 !! a)) recs) false)
    as [_ Hsync].
  destruct (project_records (collection_at c s1)
              (map (fun a => default [] (records s1 !! a)) recs) false)
    as [[col1 values] sync]. cbn [fst snd] in *.
  rewrite length_map in Hlen. simpl in Hsync.
  exists c, s1, values. split; [exact Ht |]. split; [exact Hq |].
  split; [exact Hlen |]. unfold writes_in_order, header_if_grown.
  destruct H as [(-> & Htr & Hat) | (e & w & -> & -> & Hw)].
  - left. rewrite Hat, Hlen. cbn [with_data columns data].
    rewrite <- Hsync, <- Hdata. repeat split. exact Htr.
  - right. exists e. rewrite collection_at_insert by exact Hlive.
    rewrite <- Hsync, <- Hdata. split; [reflexivity |].
    split; [| split; reflexivity].
    cbn [trace set_objects set_trace].
    destruct Hw as [-> | [-> | ->]]; [left | right; left | right; right];
      [now rewrite app_nil_r | reflexivity | reflexivity].
Qed.

Lemma update_order collectionName record s res s' :
  update googleSheet uuid collectionName record s = (res, s') ->
  (exists e, res = Err e /\
             checked_target googleSheet uuid collectionName record s =
               (Err e, s') /\
             quiet s s') \/
  (exists c r k s1 cells,
      checked_target googleSheet uuid collectionName record s =
        (Ok (c, r, k), s1) /\
      quiet s s1 /\
      writes_in_order s1 s' c (fun after => row_write after k cells)
                      res true (arr_set k r)).
Proof.
  intros H. unfold update in H.
  apply bind_cases in H as [(e & H & ->) | ([[c r] k] & s1 & Ht & H)].
  { left. exists e. split; [reflexivity |]. split; [exact H |].
    eapply quiet_checked_target; exact H. }
  right.
  pose proof (quiet_checked_target _ _ _ _ _ _ _ Ht) as Hq.
  pose proof (checked_target_ok _ _ _ _ _ _ _ _ _ Ht) as (_ & _ & _ & _ & Hlive).
  apply write_row_cases in H; [| exact Hlive].
  pose proof (project_record_frame (collection_at c s1) (record_at r s1) false)
    as (_ & _ & Hdata & _).
  pose proof (project_record_growth (collection_at c s1) (record_at r s1) false)
    as [_ Hsync].
  destruct (project_record (collection_at c s1) (record_at r s1) false)
    as [[col1 cells] sync]. cbn [fst snd] in *. simpl in Hsync.
  exists c, r, k, s1, cells. split; [exact Ht |]. split; [exact Hq |].
  unfold writes_in_order, header_if_grown.
  destruct H as [(-> & -> & _) | (e & w & -> & -> & Hw)].
  - left. rewrite collection_at_insert by exact Hlive.
    cbn [with_data columns data]. rewrite <- Hsync, <- Hdata.
    repeat split.
  - right. exists e. rewrite collection_at_insert by exact Hlive.
    rewrite <- Hsync, <- Hdata. split; [reflexivity |].
    split; [| split; reflexivity].
    cbn [trace set_objects set_trace].
    destruct Hw as [-> | [-> | ->]]; [left | right; left | right; right];
      [now rewrite app_nil_r | reflexivity | reflexivity].
Qed.

(** C7. [insertMany] and [update] first reach their collection without
    sending any write ([quiet]).  From there, a call that goes through has
    sent, in this order, the rewrite of row 1 over the full width when, and
    only when, a column was allocated, then the write of the data range, and
    only then is the row cache changed: a call that fails on the way has
    sent a beginning of that sequence and has left the row cache and the
    record objects as they were. *)
Theorem header_write_precedes_data_write collectionName recs record s :
  (forall res s',
      recs <> [] ->
      insertMany googleSheet uuid collectionName recs s = (res, s') ->
      (exists e, res = Err e /\
                 insert_target googleSheet uuid collectionName s = (Err e, s') /\
                 quiet s s') \/
      (exists c s1 values,
          insert_target googleSheet uuid collectionName s = (Ok c, s1) /\
          quiet s s1 /\
          length values = length recs /\
          writes_in_order s1 s' c
            (fun after =>
               rows_write after (length (elems (data (collection_at c s1))))
                          values)
            res (Z.of_nat (length recs)) (arr_push recs))) /\
  (forall res s',
      update googleSheet uuid collectionName record s = (res, s') ->
      (exists e, res = Err e /\
                 checked_target googleSheet uuid collectionName record s =
                   (Err e, s') /\
                 quiet s s') \/
      (exists c r k s1 cells,
          checked_target googleSheet uuid collectionName record s =
            (Ok (c, r, k), s1) /\
          quiet s s1 /\
          writes_in_order s1 s' c (fun after => row_write after k cells)
                          res true (arr_set k r))).
Proof.
  split.
  - intros res s' Hne H. now apply insertMany_order.
  - intros res s' H. now apply update_order.
Qed.

End Ordering.

(** ** What [insertMany] and [delete] leave undone *)

Lemma same_objects_refl s : same_objects s s.
Proof. reflexivity. Qed.

Lemma same_objects_trans s1 s2 s3 :
  same_objects s1 s2 -> same_objects s2 s3 -> same_objects s1 s3.
Proof. unfold same_objects. congruence. Qed.

Lemma keeps_below_refl n s : keeps_below n s s.
Proof. intros H. repeat split. exact H. Qed.

Lemma keeps_below_trans n s1 s2 s3 :
  keeps_below n s1 s2 -> keeps_below n s2 s3 -> keeps_below n s1 s3.
Proof.
  intros H12 H23 H1.
  destruct (H12 H1) as (H2 & Hc2 & Ho2).
  destruct (H23 H2) as (H3 & Hc3 & Ho3).
  split; [exact H3 |]. split; [congruence |].
  intros c Hc. rewrite Ho3, Ho2 by exact Hc. reflexivity.
Qed.

Section Undone.

Variable googleSheet : GoogleSheet.t.
Variable uuid : nat -> string.

Lemma local_await {A : Type} q (answer : list request -> option A) :
  local_step (await q answer).
Proof.
  intros s res s' H. apply await_cases in H as [-> _]. split; reflexivity.
Qed.

Lemma local_modify_record a f : local_step (modify_record a f).
Proof. intros s res s' H. injection H as _ <-. split; reflexivity. Qed.

Lemma local_fresh_uuid : local_step (fresh_uuid uuid).
Proof. intros s res s' H. injection H as _ <-. split; reflexivity. Qed.

Lemma local_syncHeader c : local_step (syncHeader googleSheet c).
Proof.
  intros s res s' H.
  apply syncHeader_cases in H as [(e & _ & ->) | [-> _]]; split; reflexivity.
Qed.

Lemma local_createSheet n : local_step (createSheet googleSheet n).
Proof.
  intros s res s' H. unfold createSheet in H.
  apply bind_cases in H as [(e & H & _) | (sheets & s1 & H1 & H)].
  - now apply local_await in H.
  - apply local_await in H1 as [Ho1 Hc1].
    destruct (List.find _ sheets) as [sh |].
    + apply bind_cases in H as [(e & H & _) | ([] & s2 & H2 & H)].
      * apply local_await in H as [-> ->]. now split.
      * apply local_await in H2 as [Ho2 Hc2]. injection H as _ <-.
        split; congruence.
    + injection H as _ <-. now split.
Qed.

Lemma local_keeps {A : Type} n (m : M A) :
  local_step m -> respects (keeps_below n) m.
Proof.
  intros Hm s res s' H Hn. apply Hm in H as [Ho Hc].
  rewrite Ho, Hc. repeat split. exact Hn.
Qed.

Lemma keeps_modify_collection n c f :
  (n <= c)%nat -> respects (keeps_below n) (modify_collection c f).
Proof.
  intros Hc s res s' H Hn. injection H as _ <-. simpl.
  rewrite length_insert. repeat split; [exact Hn |].
  intros c' Hc'. apply list_lookup_insert_ne. lia.
Qed.

Lemma keeps_alloc_collection n o :
  respects (keeps_below n) (alloc_collection o).
Proof.
  intros s res s' H Hn. injection H as _ <-. simpl.
  rewrite length_app. repeat split; [lia |].
  intros c' Hc'. apply lookup_app_l. lia.
Qed.

Ltac keeps_bind n :=
  apply (respects_bind (keeps_below n) (keeps_below_trans n)); [| intros ?].

Lemma keeps_stamp n c i items :
  respects (keeps_below n) (stamp uuid c i items).
Proof.
  revert i. induction items as [| item rest IH]; intros i; simpl.
  - apply (respects_ret _ (keeps_below_refl n)).
  - keeps_bind n; [apply (respects_read_collection _ (keeps_below_refl n)) |].
    keeps_bind n; [apply local_keeps, local_modify_record |].
    keeps_bind n; [apply local_keeps, local_fresh_uuid |].
    keeps_bind n; [apply local_keeps, local_modify_record |].
    apply IH.
Qed.

Lemma keeps_append_rows n c recs :
  (n <= c)%nat -> respects (keeps_below n) (append_rows googleSheet uuid c recs).
Proof.
  intros Hc. unfold append_rows.
  keeps_bind n; [apply (respects_read_collection _ (keeps_below_refl n)) |].
  keeps_bind n; [apply (respects_read_heap _ (keeps_below_refl n)) |].
  match goal with |- context [project_records ?a ?b ?d] =>
    destruct (project_records a b d) as [[col1 values] sync] end.
  keeps_bind n; [now apply keeps_modify_collection |].
  keeps_bind n; [apply (respects_pure _ (keeps_below_refl n)) |].
  keeps_bind n.
  { destruct sync; [apply local_keeps, local_syncHeader |
                    apply (respects_ret _ (keeps_below_refl n))]. }
  keeps_bind n; [apply local_keeps, local_await |].
  keeps_bind n; [apply keeps_stamp |].
  keeps_bind n; [now apply keeps_modify_collection |].
  apply (respects_ret _ (keeps_below_refl n)).
Qed.

Lemma collection_at_alloc o s :
  collection_at (length (objects s)) (set_objects (objects s ++ [o]) s) = o.
Proof.
  unfold collection_at. simpl.
  rewrite lookup_app_r by lia. rewrite Nat.sub_diag. reflexivity.
Qed.

(** Under a name the registry does not hold, the head of [insertMany] makes
    a new object, at the first free address, and works on it. *)
Lemma insert_target_fresh collectionName s res s' :
  registered collectionName s = None ->
  insert_target googleSheet uuid collectionName s = (res, s') ->
  keeps_below (length (objects s)) s s' /\
  (forall c, res = Ok c -> c = length (objects s)).
Proof.
  intros Hreg H. set (n := length (objects s)).
  unfold insert_target in H.
  apply bind_cases in H as [(e & H & _) | (found & s0 & Hf & H)];
    [discriminate |].
  injection Hf as <- <-. rewrite Hreg in H.
  apply bind_cases in H as [(e & H & _) | (c & s1 & Ha & H)];
    [discriminate |].
  injection Ha as <- <-. fold n in H.
  assert (Hs1 : keeps_below n s
                  (set_objects (objects s ++ [empty_collection collectionName]) s)).
  { eapply (keeps_alloc_collection n (empty_collection collectionName) s).
    reflexivity. }
  apply bind_cases in H as [(e & H & _) | (col & s2 & Hr & H)];
    [discriminate |].
  injection Hr as <- <-. subst n. rewrite collection_at_alloc in H.
  cbn [sheet empty_collection name] in H.
  set (n := length (objects s)) in *.
  assert (Hstep : respects (keeps_below n)
                    (sh <- createSheet googleSheet collectionName ;;
                     modify_collection n (with_sheet (Some sh)))).
  { keeps_bind n; [apply local_keeps, local_createSheet |].
    now apply keeps_modify_collection. }
  apply bind_cases in H as [(e & H & ->) | ([] & s3 & H3 & H)].
  - split; [| discriminate].
    eapply keeps_below_trans; [exact Hs1 | eapply Hstep; exact H].
  - injection H as <- <-. split.
    + eapply keeps_below_trans; [exact Hs1 | eapply Hstep; exact H3].
    + intros c Hc. now injection Hc as <-.
Qed.

(** Under a name the registry does not hold, [insertMany] works on an object
    of its own: whatever the client answers, the registry and the collections
    it holds are afterwards what they were, and the name is still unknown. *)
Lemma insertMany_never_registers collectionName recs s res s' :
  registry_allocated s ->
  registered collectionName s = None ->
  insertMany googleSheet uuid collectionName recs s = (res, s') ->
  collections s' = collections s /\
  registered collectionName s' = None /\
  forall predicate,
    find googleSheet uuid collectionName predicate s' = (Ok [], s').
Proof.
  intros Hwf Hreg H.
  assert (Hk : keeps_below (length (objects s)) s s').
  { unfold insertMany in H.
    destruct (length recs =? 0)%nat.
    { injection H as _ <-. apply keeps_below_refl. }
    apply bind_cases in H as [(e & H & _) | (c & s1 & Ht & H)].
    - now apply insert_target_fresh in H as [H _].
    - apply insert_target_fresh in Ht as [Hk Hc]; [| exact Hreg].
      rewrite (Hc c eq_refl) in H.
      eapply keeps_below_trans; [exact Hk |].
      eapply keeps_append_rows; [| exact H]. lia. }
  destruct (Hk (Nat.le_refl _)) as (_ & Hc & Ho).
  assert (Hreg' : registered collectionName s' = None).
  { assert (Hext : forall l,
               Forall (fun c => (c < length (objects s))%nat) l ->
               List.find (named collectionName s') l =
               List.find (named collectionName s) l).
    { induction l as [| c rest IH]; intros Hl; [reflexivity |].
      apply Forall_cons_1 in Hl as [Hlt Hrest]. simpl.
      unfold named at 1 3. rewrite (Ho c Hlt), (IH Hrest). reflexivity. }
    unfold registered in *. rewrite Hc, (Hext _ Hwf). exact Hreg. }
  split; [exact Hc |]. split; [exact Hreg' |].
  intros predicate. unfold find, bind, find_collection.
  rewrite Hreg'. reflexivity.
Qed.

Lemma local_same {A : Type} (m : M A) :
  local_step m -> respects same_objects m.
Proof. intros Hm s res s' H. now apply Hm in H as [Ho _]. Qed.

Ltac same_bind :=
  apply (respects_bind same_objects same_objects_trans); [| intros ?].

Lemma same_remove_rows c descending :
  respects same_objects (remove_rows googleSheet c descending).
Proof.
  induction descending as [| index rest IH]; simpl.
  - apply (respects_ret _ same_objects_refl).
  - same_bind; [apply (respects_read_collection _ same_objects_refl) |].
    same_bind; [apply (respects_from_option _ same_objects_refl) |].
    same_bind; [apply local_same, local_await |].
    same_bind; [| exact IH].
    intros s res s' H. injection H as _ <-. reflexivity.
Qed.

Lemma same_restamp items : respects same_objects (restamp uuid items).
Proof.
  induction items as [| [i item] rest IH]; simpl.
  - apply (respects_ret _ same_objects_refl).
  - same_bind; [apply local_same, local_modify_record |].
    same_bind; [apply local_same, local_fresh_uuid |].
    same_bind; [apply local_same, local_modify_record |].
    exact IH.
Qed.

(** [delete] on a materialised collection never writes to a collection
    object: whatever the predicate matches and whatever the client answers,
    every row cache is afterwards what it was. *)
Lemma delete_keeps_row_cache collectionName c condition s res s' :
  registered collectionName s = Some c ->
  initialized (collection_at c s) = Some true ->
  delete_ googleSheet uuid collectionName condition s = (res, s') ->
  objects s' = objects s.
Proof.
  intros Hreg Hinit H. unfold delete_ in H.
  rewrite (bind_step _ _ s (Some c) s) in H
    by (unfold find_collection; now rewrite Hreg).
  rewrite (bind_step _ _ s tt s) in H
    by (now apply initCollection_initialized).
  match type of H with ?m s = _ =>
    assert (Hm : respects same_objects m); [| exact (Hm _ _ _ H)] end.
  same_bind; [apply (respects_read_collection _ same_objects_refl) |].
  same_bind; [apply (respects_read_heap _ same_objects_refl) |].
  same_bind; [apply same_remove_rows |].
  same_bind; [apply (respects_read_collection _ same_objects_refl) |].
  same_bind; [apply same_restamp |].
  apply (respects_ret _ same_objects_refl).
Qed.

End Undone.

(** ** The operations run on the demonstration states *)

Example initialize_makes_the_shells :
  initialize demo_client
    (mkState [] 0 (records shell_db) [] []) = (Ok tt, shell_db).
Proof. vm_compute. reflexivity. Qed.

Example loaded_db_rows :
  registered "people" loaded_db = Some 0%nat /\
  elems (data (collection_at 0 loaded_db)) =
    [Some 4; Some 5; Some 6; Some 7]%nat /\
  map (fun a => obj_get "_index" (record_at a loaded_db)) [4; 5; 6; 7]%nat =
    [VNum 0; VNum 1; VNum 2; VNum 3] /\
  map (fun a => obj_get "name" (record_at a loaded_db)) [4; 5; 6; 7]%nat =
    [VStr "a"; VStr "b"; VStr "c"; VStr "d"] /\
  trace loaded_db =
    [ReqAuthenticate; ReqGetSheets; ReqReadData "people!A1:Z1000"].
Proof. vm_compute. repeat split. Qed.

(** C2. The claim: after inserting [{name: "a"}] under a name the registry
    does not hold, [find] on that name returns the one record.  The code:
    [insertMany] builds the new collection object, creates its sheet, writes
    the header and the row, stamps the record and appends it to the row cache
    of that object, and never pushes the object on [this.collections]; the
    registry is as empty as before and [find] returns the empty list. *)
Theorem insert_then_find_loses_the_record :
  let s1 := snd (insert demo_client demo_uuid "c" 0%nat empty_db) in
  registered "c" empty_db = None /\
  fst (insert demo_client demo_uuid "c" 0%nat empty_db) = Ok VUndef /\
  trace s1 =
    [ReqCreateSheet "c"; ReqApplyHeaderStyle (Some 7);
     ReqWriteData "c!A1:A1" [[Some (VStr "name")]];
     ReqWriteData "c!A2:A2" [[Some (VStr "a")]]] /\
  record_at 0 s1 =
    [("name", VStr "a"); ("_index", VNum 0); ("_id", VStr "uuid-0")]%string /\
  data (collection_at 0 s1) = mkArray [Some 0%nat] [] /\
  collections s1 = [] /\
  find demo_client demo_uuid "c" None s1 = (Ok [], s1).
Proof. vm_compute. repeat split. Qed.

(** C3. The claim: after [delete] the row cache holds the records that did
    not match, re-indexed.  The code removes the remote rows and splices
    [this.collections], not [collection.data]: of the four rows a, b, c, d
    with b and d matching, all four stay in the row cache, stamped 0 to 3
    with new identifiers, the count returned is 2, and the registry has lost
    its entry at position 1, the collection [orders]. *)
Theorem delete_keeps_matched_rows :
  let s1 := snd (delete_ demo_client demo_uuid "people" named_b_or_d loaded_db) in
  fst (delete_ demo_client demo_uuid "people" named_b_or_d loaded_db) = Ok 2 /\
  trace s1 =
    trace loaded_db ++
    [ReqRemoveRows (Some 7) 4 1; ReqRemoveRows (Some 7) 2 1] /\
  elems (data (collection_at 0 s1)) = [Some 4; Some 5; Some 6; Some 7]%nat /\
  map (fun a => obj_get "name" (record_at a s1)) [4; 5; 6; 7]%nat =
    [VStr "a"; VStr "b"; VStr "c"; VStr "d"] /\
  map (fun a => obj_get "_index" (record_at a s1)) [4; 5; 6; 7]%nat =
    [VNum 0; VNum 1; VNum 2; VNum 3] /\
  map (fun a => obj_get "_id" (record_at a s1)) [4; 5; 6; 7]%nat =
    [VStr "uuid-4"; VStr "uuid-5"; VStr "uuid-6"; VStr "uuid-7"] /\
  collections loaded_db = [0; 1]%nat /\
  collections s1 = [0%nat].
Proof. vm_compute. repeat split. Qed.


Lemma update_rejects_bad_usage_witness :
  exists e, usage_error e /\
            update demo_client demo_uuid "people" (Some 1%nat) shell_db =
              (Err e, shell_db).
Proof.
  apply (update_rejects_bad_usage demo_client demo_uuid "people" (Some 1%nat)
           shell_db).
  right. right. exists 1%nat. split; reflexivity.
Defined.

Lemma missing_collection_is_empty_witness :
  find demo_client demo_uuid "nobody" None shell_db = (Ok [], shell_db) /\
  delete_ demo_client demo_uuid "nobody" named_b_or_d shell_db =
    (Ok 0, shell_db) /\
  update demo_client demo_uuid "nobody" (Some 0%nat) shell_db =
    (Err (Error "Collection not exists"), shell_db) /\
  refreshRecord demo_client demo_uuid "nobody" (Some 0%nat) shell_db =
    (Err (Error "Collection not exists"), shell_db).
Proof.
  apply (missing_collection_is_empty demo_client demo_uuid "nobody" None
           named_b_or_d (Some 0%nat) shell_db).
  reflexivity.
Defined.

Lemma initialized_reads_are_local_witness :
  initCollection demo_client demo_uuid 0%nat loaded_db = (Ok tt, loaded_db) /\
  exists found,
    find demo_client demo_uuid "people" None loaded_db = (Ok found, loaded_db) /\
    findOne demo_client demo_uuid "people" None loaded_db =
      (Ok (head found), loaded_db) /\
    (find demo_client demo_uuid "people" None ;;
     find demo_client demo_uuid "people" None) loaded_db = (Ok found, loaded_db).
Proof.
  apply (initialized_reads_are_local demo_client demo_uuid "people" 0%nat None
           loaded_db); reflexivity.
Defined.




(** [update] with [_index] 6 on a cache of four rows: the write goes to the
    remote row 8 and the cache grows to seven slots, two of them holes. *)
Example update_past_the_end :
  let s' := snd (update demo_client demo_uuid "people" (Some 3%nat) loaded_db) in
  fst (update demo_client demo_uuid "people" (Some 3%nat) loaded_db) = Ok true /\
  list.last (trace s') =
    Some (ReqWriteData "people!A8:A8" [[Some (VStr "far")]]) /\
  elems (data (collection_at 0 s')) =
    [Some 4; Some 5; Some 6; Some 7; None; None; Some 3]%nat.
Proof. vm_compute. repeat split. Qed.

(** [update] with [_index] -1: the write lands on the header row. *)
Example update_on_the_header :
  let s' := snd (update demo_client demo_uuid "people" (Some 2%nat) loaded_db) in
  fst (update demo_client demo_uuid "people" (Some 2%nat) loaded_db) = Ok true /\
  list.last (trace s') =
    Some (ReqWriteData "people!A1:A1" [[Some (VStr "h")]]) /\
  data (collection_at 0 s') =
    mkArray [Some 4; Some 5; Some 6; Some 7]%nat [(-1, 2%nat)].
Proof. vm_compute. repeat split. Qed.

Lemma header_write_precedes_data_write_witness :
  let res := fst (insertMany demo_client demo_uuid "c" [0%nat] empty_db) in
  let s' := snd (insertMany demo_client demo_uuid "c" [0%nat] empty_db) in
  (exists e, res = Err e /\
             insert_target demo_client demo_uuid "c" empty_db = (Err e, s') /\
             quiet empty_db s') \/
  (exists c s1 values,
      insert_target demo_client demo_uuid "c" empty_db = (Ok c, s1) /\
      quiet empty_db s1 /\
      length values = length [0%nat] /\
      writes_in_order s1 s' c
        (fun after =>
           rows_write after (length (elems (data (collection_at c s1)))) values)
        res (Z.of_nat (length [0%nat])) (arr_push [0%nat])).
Proof.
  intros res s'.
  apply (proj1 (header_write_precedes_data_write demo_client demo_uuid "c"
                  [0%nat] None empty_db)).
  - discriminate.
  - vm_compute. reflexivity.
Defined.

(** A record whose only field is a known column: one request, the write of
    the row below the four of the cache, and no header write. *)
Example insert_without_new_column :
  let s' := snd (insertMany demo_client demo_uuid "people" [0%nat] loaded_db) in
  fst (insertMany demo_client demo_uuid "people" [0%nat] loaded_db) = Ok 1 /\
  trace s' =
    trace loaded_db ++ [ReqWriteData "people!A6:A6" [[Some (VStr "z")]]] /\
  elems (data (collection_at 0 s')) =
    [Some 4; Some 5; Some 6; Some 7; Some 0]%nat /\
  obj_get "_index" (record_at 0 s') = VNum 4.
Proof. vm_compute. repeat split. Qed.
